(** * FOM-Generation: a shallow embedding of [Main.py]

    The program reads a sheet of figure-of-merit measurements into a pandas
    DataFrame, resolves a reference ("SOTA") line either from an override
    formula or from a fit over competitor rows, and draws a scatter plot.

    Conventions of the embedding.
    - A Python float is a real number ([R]); sums, products and quotients are
      exact.  The logarithm and the power of numpy are not: they are the
      rounded functions of the platform, taken as parameters.
    - A spreadsheet cell is [NaN] (empty), a number or a text.
    - A character is a code point below 256.
    - A Python call that may raise returns an [outcome].
    - Console output ([print]) and message boxes are not modelled. *)

From Stdlib Require Import List String Ascii Bool Arith ZArith Lia.
From Stdlib Require Import Reals Lra Psatz.
Import ListNotations.

Open Scope string_scope.
Open Scope list_scope.

(** ** Outcomes of a Python call *)

Inductive exn : Type :=
| KeyError
| ValueError
| IndexError
| TypeError
| AttributeError
| RuntimeError.

(** [Return v]: the call returns [v].  [Raise e]: an exception propagates.
    [Exit n]: [exit(n)] was called ([SystemExit] is not an [Exception], no
    handler of the program catches it).  [NotFinite]: Python goes on with a
    [nan] or [inf] value that a real-valued array cannot hold; the model
    follows the run no further. *)
Inductive outcome (A : Type) : Type :=
| Return (a : A)
| Raise (e : exn)
| Exit (code : Z)
| NotFinite.

Arguments Return {A} a.
Arguments Raise {A} e.
Arguments Exit {A} code.
Arguments NotFinite {A}.

Definition bind {A B : Type} (m : outcome A) (k : A -> outcome B) : outcome B :=
  match m with
  | Return a => k a
  | Raise e => Raise e
  | Exit n => Exit n
  | NotFinite => NotFinite
  end.

Declare Scope py_scope.
Delimit Scope py_scope with py.
Notation "x <- m ;; k" := (bind m (fun x => k))
  (at level 61, m at next level, right associativity) : py_scope.
Open Scope py_scope.

(** ** Cells, series and data frames *)

Inductive cell : Type :=
| NaN
| Num (r : R)
| Str (s : string).

Definition notna (c : cell) : bool :=
  match c with
  | NaN => false
  | _ => true
  end.

Definition isna (c : cell) : bool := negb (notna c).

(** A row maps column names to cells; a name it does not list reads [NaN]. *)
Definition Row : Type := list (string * cell).

Fixpoint row_get (name : string) (r : Row) : cell :=
  match r with
  | [] => NaN
  | (k, c) :: r' => if String.eqb k name then c else row_get name r'
  end.

Definition Series : Type := list cell.

Record DataFrame : Type := mkDataFrame {
  columns : list string;
  rows : list Row
}.

(** [name in df.columns] *)
Definition has_column (df : DataFrame) (name : string) : bool :=
  existsb (String.eqb name) (columns df).

(** [df[name]] *)
Definition getitem (df : DataFrame) (name : string) : outcome Series :=
  if has_column df name
  then Return (map (row_get name) (rows df))
  else Raise KeyError.

(** [series.dropna()] *)
Definition Series_dropna (s : Series) : Series := filter notna s.

(** [series.empty] *)
Definition Series_empty (s : Series) : bool :=
  match s with
  | [] => true
  | _ :: _ => false
  end.

(** [series.values[0]] *)
Definition values0 (s : Series) : outcome cell :=
  match s with
  | c :: _ => Return c
  | [] => Raise IndexError
  end.

(** The rows [df.dropna(subset=...)] keeps: no listed column is missing. *)
Definition complete_on (subset : list string) (r : Row) : bool :=
  forallb (fun name => notna (row_get name r)) subset.

(** [df.dropna(subset=subset)]; a label of [subset] that is no column is a
    [KeyError]. *)
Definition DataFrame_dropna (subset : list string) (df : DataFrame)
  : outcome DataFrame :=
  if forallb (has_column df) subset
  then Return (mkDataFrame (columns df) (filter (complete_on subset) (rows df)))
  else Raise KeyError.

(** [df.empty]: one of the two axes has length 0. *)
Definition DataFrame_empty (df : DataFrame) : bool :=
  match rows df, columns df with
  | [], _ => true
  | _, [] => true
  | _, _ => false
  end.

(** [series.str.startswith(p)]: a text cell gives a boolean, any other cell a
    missing entry.  (The accessor is modelled on an object column, which is
    what a column of text is read as.) *)
Definition str_startswith (p : string) (s : Series) : list (option bool) :=
  map (fun c => match c with
                | Str t => Some (String.prefix p t)
                | _ => None
                end) s.

Fixpoint select_rows (rs : list Row) (mask : list (option bool)) : list Row :=
  match rs, mask with
  | r :: rs', Some true :: mask' => r :: select_rows rs' mask'
  | _ :: rs', _ :: mask' => select_rows rs' mask'
  | _, _ => []
  end.

(** [df[mask]]: boolean indexing; a mask with a missing entry is refused. *)
Definition DataFrame_mask (df : DataFrame) (mask : list (option bool))
  : outcome DataFrame :=
  if forallb (fun b => match b with Some _ => true | None => false end) mask
  then Return (mkDataFrame (columns df) (select_rows (rows df) mask))
  else Raise ValueError.

(** ** Regular expressions: the part of [re] the program uses *)

Inductive regex : Type :=
| Chr (c : ascii)
| Cls (p : ascii -> bool)
| Cat (r1 r2 : regex)
| Star (r : regex)
| Opt (r : regex)
| Grp (n : nat) (r : regex).

(** [r+] *)
Definition Plus (r : regex) : regex := Cat r (Star r).

Definition groups : Type := list (nat * string).

Fixpoint group (n : nat) (g : groups) : option string :=
  match g with
  | [] => None
  | (k, s) :: g' => if Nat.eqb k n then Some s else group n g'
  end.

(** Backtracking matcher in continuation style: [rmatch r s g k] matches [r]
    at the head of [s] and hands the rest of the input to [k]; quantifiers are
    greedy and give characters back when [k] fails.  A [Star] iteration that
    consumes nothing is dropped, as the [re] engine does. *)
Fixpoint rmatch (r : regex) (s : string) (g : groups)
  (k : string -> groups -> option groups) {struct r} : option groups :=
  match r with
  | Chr c =>
      match s with
      | String d s' => if Ascii.eqb c d then k s' g else None
      | EmptyString => None
      end
  | Cls p =>
      match s with
      | String d s' => if p d then k s' g else None
      | EmptyString => None
      end
  | Cat r1 r2 => rmatch r1 s g (fun s' g' => rmatch r2 s' g' k)
  | Opt r1 =>
      match rmatch r1 s g k with
      | Some m => Some m
      | None => k s g
      end
  | Star r1 =>
      (fix loop (fuel : nat) (s : string) (g : groups) {struct fuel}
         : option groups :=
         match fuel with
         | O => k s g
         | S fuel' =>
             match
               rmatch r1 s g
                 (fun s' g' =>
                    if (String.length s' <? String.length s)%nat
                    then loop fuel' s' g'
                    else None)
             with
             | Some m => Some m
             | None => k s g
             end
         end) (String.length s) s g
  | Grp n r1 =>
      rmatch r1 s g
        (fun s' g' =>
           k s' ((n, substring 0 (String.length s - String.length s') s) :: g'))
  end.

(** [re.search(r, s)]: the match at the leftmost position that has one. *)
Fixpoint re_search (r : regex) (s : string) : option groups :=
  match rmatch r s [] (fun _ g => Some g) with
  | Some m => Some m
  | None =>
      match s with
      | String _ s' => re_search r s'
      | EmptyString => None
      end
  end.

Definition code (c : ascii) : nat := nat_of_ascii c.

(** [\d] on code points below 256 *)
Definition is_digit (c : ascii) : bool :=
  (48 <=? code c)%nat && (code c <=? 57)%nat.

(** [\s] on code points below 256: tab to carriage return, the four
    separators 28..31, space, next-line and no-break space. *)
Definition is_space (c : ascii) : bool :=
  ((9 <=? code c)%nat && (code c <=? 13)%nat)
  || ((28 <=? code c)%nat && (code c <=? 32)%nat)
  || (code c =? 133)%nat
  || (code c =? 160)%nat.

(** [[\d\.]] *)
Definition digit_or_dot (c : ascii) : bool :=
  is_digit c || Ascii.eqb c ".".

(** [[\d\.-]] *)
Definition digit_dot_or_minus (c : ascii) : bool :=
  is_digit c || Ascii.eqb c "." || Ascii.eqb c "-".

Definition ws : regex := Star (Cls is_space).

(** The pattern of [parse_sota_override], token by token:
    y \s* = \s* ( [\d\.]+ ) \s* \* \s* x \s* \+? \s* ( [\d\.-]* ) *)
Definition override_pattern : regex :=
  Cat (Chr "y") (Cat ws (Cat (Chr "=") (Cat ws
  (Cat (Grp 1 (Plus (Cls digit_or_dot))) (Cat ws
  (Cat (Chr "*") (Cat ws (Cat (Chr "x") (Cat ws
  (Cat (Opt (Chr "+")) (Cat ws
  (Grp 2 (Star (Cls digit_dot_or_minus)))))))))))))).

(** [match.group(n)] *)
Definition match_group (n : nat) (m : groups) : option string := group n m.

(** [re.search(pattern, v)] on a cell: a value that is no text is refused. *)
Definition re_search_cell (r : regex) (v : cell) : outcome (option groups) :=
  match v with
  | Str s => Return (re_search r s)
  | _ => Raise TypeError
  end.

(** ** [float] on decimal literals *)

Definition digit_value (c : ascii) : Z := Z.of_nat (code c - 48).

(** The leading digits of [s]: their value after [acc], how many they are,
    and what follows them. *)
Fixpoint scan_digits (acc : Z) (n : nat) (s : string) : Z * nat * string :=
  match s with
  | String c s' =>
      if is_digit c
      then scan_digits (10 * acc + digit_value c) (S n) s'
      else (acc, n, s)
  | EmptyString => (acc, n, s)
  end.

Definition scan_sign (s : string) : Z * string :=
  match s with
  | String "-" s' => ((-1)%Z, s')
  | String "+" s' => (1%Z, s')
  | _ => (1%Z, s)
  end.

(** A literal [sign digits . digits] with at least one digit, as the pair of
    its mantissa and the number of digits after the point. *)
Definition parse_decimal (s : string) : option (Z * nat) :=
  let '(sign, s1) := scan_sign s in
  let '(v1, n1, s2) := scan_digits 0 0 s1 in
  let '(v2, n2, s3) :=
    match s2 with
    | String "." s2' => scan_digits v1 0 s2'
    | _ => (v1, 0%nat, s2)
    end in
  match s3 with
  | EmptyString =>
      if (1 <=? n1 + n2)%nat then Some ((sign * v2)%Z, n2) else None
  | String _ _ => None
  end.

(** [float(s)] for a text made of digits, points and signs, which is all the
    groups of the pattern can hold: the number it spells, [ValueError] when it
    spells none.  (Exponents, [inf], [nan], digit separators and surrounding
    blanks, which [float] also reads, are not modelled.) *)
Definition float (s : string) : outcome R :=
  match parse_decimal s with
  | Some (m, n) => Return (IZR m / IZR (10 ^ Z.of_nat n))%R
  | None => Raise ValueError
  end.

(** [float(match.group(n))]; [float(None)] is a [TypeError]. *)
Definition float_group (n : nat) (m : groups) : outcome R :=
  match match_group n m with
  | Some s => float s
  | None => Raise TypeError
  end.

(** Truth value of [match.group(n)]: a group that is absent or empty is
    false. *)
Definition group_truthy (n : nat) (m : groups) : bool :=
  match match_group n m with
  | Some (String _ _) => true
  | _ => false
  end.

(** ** Reference functions *)

(** A numeric array, as [np.logspace] returns and the reference function
    receives. *)
Definition ndarray : Type := list R.

Definition ReferenceFunction : Type := ndarray -> outcome ndarray.

(** [a * x + b] on an array [x] *)
Definition affine (a b : R) (x : ndarray) : ndarray :=
  map (fun xi => (a * xi + b)%R) x.

(** [np.full_like(x, fill_value=fill)] for a float array [x].  A missing fill
    value gives an array of [nan].  A text is refused here; numpy would accept
    one that spells a number, but [Y FOM] is a numeric column. *)
Definition np_full_like (x : ndarray) (fill : cell) : outcome ndarray :=
  match fill with
  | Num v => Return (map (fun _ => v) x)
  | NaN => NotFinite
  | Str _ => Raise ValueError
  end.

(** ** [parse_sota_override] *)

(** Lines 43 to 47: the search in the first formula [v] and what is built
    from the match. *)
Definition parse_formula (v : cell) : outcome (option ReferenceFunction) :=
  mt <- re_search_cell override_pattern v ;;
  match mt with
  | Some m =>
      slope <- float_group 1 m ;;
      intercept <- (if group_truthy 2 m then float_group 2 m else Return 0%R) ;;
      Return (Some (fun x => Return (affine slope intercept x)))
  | None => Return None
  end.

Definition parse_sota_override (df : DataFrame)
  : outcome (option ReferenceFunction) :=
  col <- getitem df "SOTA Override" ;;
  let formula := Series_dropna col in
  if negb (Series_empty formula) then
    v <- values0 formula ;;
    parse_formula v
  else Return None.

(** ** [compute_sota_auto] *)

(** The data arrays as [curve_fit] takes them: it converts with
    [np.asarray_chkfinite(_, float)], which refuses a missing value; a text
    cell is refused as well (one that spells a number would convert, but the
    FOM columns are numeric). *)
Fixpoint to_ndarray (s : Series) : outcome ndarray :=
  match s with
  | [] => Return []
  | Num v :: s' => vs <- to_ndarray s' ;; Return (v :: vs)
  | _ :: _ => Raise ValueError
  end.

(** [def linear(x, a, b): return a * x + b] *)
Definition linear (x a b : R) : R := (a * x + b)%R.

Section Resolver.

(** [scipy.optimize.curve_fit(f, xdata, ydata)]: the optimal parameters
    [(params[0], params[1])] of a two-parameter model, or the exception it
    raises; the covariance it also returns is dropped by the caller. *)
Variable curve_fit : (R -> R -> R -> R) -> ndarray -> ndarray -> outcome (R * R).

Definition compute_sota_auto (df : DataFrame) : outcome ReferenceFunction :=
  ids <- getitem df "ID" ;;
  df_comp <- DataFrame_mask df (str_startswith "COMP" ids) ;;
  if DataFrame_empty df_comp then
    Return (fun x => np_full_like x (Num 0))
  else if (List.length (rows df_comp) =? 1)%nat then
    ys <- getitem df_comp "Y FOM" ;;
    y_val <- values0 ys ;;
    Return (fun x => np_full_like x y_val)
  else
    xs <- getitem df_comp "X FOM" ;;
    ys <- getitem df_comp "Y FOM" ;;
    x <- to_ndarray xs ;;
    y <- to_ndarray ys ;;
    params <- curve_fit linear x y ;;
    Return (fun x => Return (affine (fst params) (snd params) x)).

(** [parse_sota_override(df) or compute_sota_auto(df)]: a function is true,
    [None] is false. *)
Definition resolve_sota (df : DataFrame) : outcome ReferenceFunction :=
  o <- parse_sota_override df ;;
  match o with
  | Some f => Return f
  | None => compute_sota_auto df
  end.

End Resolver.

(** ** [get_chart_metadata] *)

(** One of the three conditional expressions of [get_chart_metadata]:
    [df[name].dropna().values[0] if name in df.columns and not
    df[name].dropna().empty else default]. *)
Definition metadata_field (df : DataFrame) (name : string) (default : cell)
  : outcome cell :=
  if has_column df name then
    col <- getitem df name ;;
    if negb (Series_empty (Series_dropna col)) then
      col' <- getitem df name ;;
      values0 (Series_dropna col')
    else Return default
  else Return default.

Definition default_title : cell := Str "Figure of Merit (FOM) Scatter Plot".
Definition default_x_name : cell := Str "X FOM".
Definition default_y_name : cell := Str "Y FOM".

Definition get_chart_metadata (df : DataFrame) : outcome (cell * cell * cell) :=
  chart_title <- metadata_field df "Chart Title" default_title ;;
  x_name <- metadata_field df "X FOM Name" default_x_name ;;
  y_name <- metadata_field df "Y FOM Name" default_y_name ;;
  Return (chart_title, x_name, y_name).

(** ** numpy: [log10], [linspace], [logspace] *)

(** The numbers of a series, missing cells skipped; a text cell makes the
    reduction fail. *)
Fixpoint numbers (s : Series) : outcome (list R) :=
  match s with
  | [] => Return []
  | NaN :: s' => numbers s'
  | Num v :: s' => vs <- numbers s' ;; Return (v :: vs)
  | Str _ :: _ => Raise TypeError
  end.

(** [series.min()] and [series.max()]: missing cells are skipped, and a series
    without numbers gives [nan].  On text the model raises [TypeError] at once;
    pandas does so for a mixed column and returns the least text for a column
    of text only, which [np.log10] then refuses with the same exception. *)
Definition Series_min (s : Series) : outcome cell :=
  vs <- numbers s ;;
  match vs with
  | [] => Return NaN
  | v :: vs' => Return (Num (fold_left Rmin vs' v))
  end.

Definition Series_max (s : Series) : outcome cell :=
  vs <- numbers s ;;
  match vs with
  | [] => Return NaN
  | v :: vs' => Return (Num (fold_left Rmax vs' v))
  end.

Section Rendering.

(** numpy computes [log10(x)] and [10.0 ** y] in binary64: each result is the
    real logarithm or power rounded by the platform's library, so that
    [10 ** log10(5)] is 5.000000000000001 and not 5.  The embedding takes the
    two rounded functions as they are and assumes nothing about them. *)
Variable float_log10 : R -> R.
Variable float_pow10 : R -> R.

(** [np.log10(c)]: defined on the positive numbers; on zero, a negative number
    or [nan] numpy returns [-inf] or [nan]. *)
Definition np_log10 (c : cell) : outcome R :=
  match c with
  | Num x => if Rlt_dec 0 x then Return (float_log10 x) else NotFinite
  | NaN => NotFinite
  | Str _ => Raise TypeError
  end.

(** [np.linspace(start, stop, num)]: [num] samples [start + i * step], the
    last one set to [stop]. *)
Definition np_linspace (start stop : R) (num : nat) : ndarray :=
  match num with
  | O => []
  | S O => [start]
  | S (S n as div) =>
      let step := ((stop - start) / INR div)%R in
      map (fun i => (INR i * step + start)%R) (seq 0 div) ++ [stop]
  end.

(** [np.logspace(start, stop, num)]: [10 ** y] for [y] in the linear space. *)
Definition np_logspace (start stop : R) (num : nat) : ndarray :=
  map float_pow10 (np_linspace start stop num).

(** ** [plot_fom] *)

(** The calls on [matplotlib.pyplot], with the arguments that carry data.  A
    cell shown as a text stands for its [str]. *)
Inductive plt_call : Type :=
| plt_figure (width height : R)
| plt_scatter (x y : Series) (color label : string)
| plt_text (x y : cell) (s : cell)
| plt_plot (x y : ndarray) (fmt color label : string)
| plt_xscale (scale : string)
| plt_xlabel (name : cell) (suffix : string)
| plt_ylabel (name : cell)
| plt_title (name : cell)
| plt_grid
| plt_legend
| plt_tight_layout
| plt_show.

(** [row[name]] for a row of [df.iterrows()] *)
Definition row_item (df : DataFrame) (r : Row) (name : string) : outcome cell :=
  if has_column df name then Return (row_get name r) else Raise KeyError.

(** [for _, row in df.iterrows(): plt.text(row["X FOM"], row["Y FOM"],
    str(row["Label"]), ...)] *)
Fixpoint annotate (df : DataFrame) (rs : list Row) : outcome (list plt_call) :=
  match rs with
  | [] => Return []
  | r :: rs' =>
      x <- row_item df r "X FOM" ;;
      y <- row_item df r "Y FOM" ;;
      l <- row_item df r "Label" ;;
      calls <- annotate df rs' ;;
      Return (plt_text x y l :: calls)
  end.

Definition plot_fom (df : DataFrame) (sota_fn : ReferenceFunction)
  : outcome (list plt_call) :=
  meta <- get_chart_metadata df ;;
  let '(chart_title, x_label, y_label) := meta in
  ids <- getitem df "ID" ;;
  products <- DataFrame_mask df (str_startswith "PROD" ids) ;;
  ids' <- getitem df "ID" ;;
  competitors <- DataFrame_mask df (str_startswith "COMP" ids') ;;
  cx <- getitem competitors "X FOM" ;;
  cy <- getitem competitors "Y FOM" ;;
  ctexts <- annotate competitors (rows competitors) ;;
  px <- getitem products "X FOM" ;;
  py <- getitem products "Y FOM" ;;
  ptexts <- annotate products (rows products) ;;
  xs <- getitem df "X FOM" ;;
  lo <- Series_min xs ;;
  log_lo <- np_log10 lo ;;
  xs' <- getitem df "X FOM" ;;
  hi <- Series_max xs' ;;
  log_hi <- np_log10 hi ;;
  let x_vals := np_logspace log_lo log_hi 100 in
  y_vals <- sota_fn x_vals ;;
  Return
    ([plt_figure 10 7; plt_scatter cx cy "red" "Competitor"]
       ++ ctexts
       ++ [plt_scatter px py "blue" "Product"]
       ++ ptexts
       ++ [plt_plot x_vals y_vals "--" "green" "SOTA Line";
           plt_xscale "log";
           plt_xlabel x_label " (log scale)";
           plt_ylabel y_label;
           plt_title chart_title;
           plt_grid; plt_legend; plt_tight_layout; plt_show]).

End Rendering.

(** ** [select_file], [load_fom_data] and the main program *)

Section Program.

(** [filedialog.askopenfilename(...)]: the chosen path, empty on cancel. *)
Variable askopenfilename : string.

(** [pd.read_excel(filepath, sheet_name=...)] *)
Variable read_excel : string -> string -> outcome DataFrame.

Variable curve_fit : (R -> R -> R -> R) -> ndarray -> ndarray -> outcome (R * R).

(** The rounded [log10] and [10.0 ** y] of numpy. *)
Variable float_log10 : R -> R.
Variable float_pow10 : R -> R.

Definition select_file : outcome string :=
  let file_path := askopenfilename in
  match file_path with
  | EmptyString => Exit 1
  | String _ _ => Return file_path
  end.

(** [except Exception as e: ...; exit(1)] around the body. *)
Definition load_fom_data (filepath : string) : outcome DataFrame :=
  match
    (df <- read_excel filepath "FOM_Data" ;;
     DataFrame_dropna ["X FOM"; "Y FOM"] df)
  with
  | Raise _ => Exit 1
  | o => o
  end.

Definition main : outcome (list plt_call) :=
  file_path <- select_file ;;
  df <- load_fom_data file_path ;;
  sota_fn <- resolve_sota curve_fit df ;;
  plot_fom float_log10 float_pow10 df sota_fn.

End Program.

(** * Vocabulary of the properties, and example data *)

(** The real logarithm to base 10. *)
Definition log10 (x : R) : R := (ln x / ln 10)%R.




(** The rows the loader removes: [X FOM] or [Y FOM] is missing. *)
Definition fom_missing (r : Row) : bool :=
  isna (row_get "X FOM" r) || isna (row_get "Y FOM" r).

(** A sheet as read, without the optional columns; its second row has no
    [X FOM]. *)
Definition sheet_example : DataFrame :=
  mkDataFrame ["ID"; "Label"; "X FOM"; "Y FOM"]
    [ [("ID", Str "COMP1"); ("Label", Str "A"); ("X FOM", Num 1); ("Y FOM", Num 10)];
      [("ID", Str "PROD1"); ("Label", Str "P"); ("X FOM", NaN); ("Y FOM", Num 3)];
      [("ID", Str "COMP2"); ("Label", Str "B"); ("X FOM", Num 2); ("Y FOM", Num 20)];
      [("ID", Str "PROD2"); ("Label", Str "Q"); ("X FOM", Num 5); ("Y FOM", Num 1)] ].

(** What the specification says of one metadata field: the first value of the
    column that is not empty when the column exists and has one, the default
    otherwise. *)
Definition first_value_or_default (df : DataFrame) (name : string)
  (default : cell) : cell :=
  if has_column df name then
    match find notna (map (row_get name) (rows df)) with
    | Some v => v
    | None => default
    end
  else default.

(** The row's [ID] is a text that starts with [p]. *)
Definition starts_with (p : string) (r : Row) : bool :=
  match row_get "ID" r with
  | Str s => String.prefix p s
  | _ => false
  end.

(** The row's [ID] is a text, as the data model has it. *)
Definition id_is_text (r : Row) : Prop := exists s, row_get "ID" r = Str s.

(** Two products and no competitor; the override column is empty. *)
Definition no_competitor_example : DataFrame :=
  mkDataFrame ["ID"; "Label"; "X FOM"; "Y FOM"; "SOTA Override"]
    [ [("ID", Str "PROD1"); ("Label", Str "P"); ("X FOM", Num 5); ("Y FOM", Num 1)];
      [("ID", Str "PROD2"); ("Label", Str "Q"); ("X FOM", Num 7); ("Y FOM", Num 2)] ].

(** One product and one competitor; the override column is empty. *)
Definition one_competitor_example : DataFrame :=
  mkDataFrame ["ID"; "Label"; "X FOM"; "Y FOM"; "SOTA Override"]
    [ [("ID", Str "PROD1"); ("Label", Str "P"); ("X FOM", Num 5); ("Y FOM", Num 1)];
      [("ID", Str "COMP1"); ("Label", Str "A"); ("X FOM", Num 2); ("Y FOM", Num 4)] ].

(** A fitting routine that never converges: the branches without a fit do
    not call it. *)
Definition no_fit : (R -> R -> R -> R) -> ndarray -> ndarray -> outcome (R * R) :=
  fun _ _ _ => Raise RuntimeError.

(** A loaded sheet whose [SOTA Override] column holds [s] in its second row
    and is empty elsewhere. *)
Definition override_frame (s : string) : DataFrame :=
  mkDataFrame ["ID"; "Label"; "X FOM"; "Y FOM"; "SOTA Override"]
    [ [("ID", Str "COMP1"); ("Label", Str "A"); ("X FOM", Num 1); ("Y FOM", Num 10)];
      [("ID", Str "COMP2"); ("Label", Str "B"); ("X FOM", Num 2); ("Y FOM", Num 20);
       ("SOTA Override", Str s)];
      [("ID", Str "PROD1"); ("Label", Str "P"); ("X FOM", Num 5); ("Y FOM", Num 1)] ].



(** The number in a cell of a numeric column. *)
Definition number_of (c : cell) : R :=
  match c with
  | Num v => v
  | _ => 0%R
  end.

Definition fom_values (name : string) (rs : list Row) : ndarray :=
  map (fun r => number_of (row_get name r)) rs.

(** The competitor rows of a frame. *)
Definition competitors (df : DataFrame) : list Row :=
  filter (starts_with "COMP") (rows df).




(** The end-to-end example of the specification: competitors [(1, 10)] and
    [(2, 20)], product [(5, 1)], no override. *)
Definition end_to_end_example : DataFrame :=
  mkDataFrame ["ID"; "Label"; "X FOM"; "Y FOM"; "SOTA Override"]
    [ [("ID", Str "COMP1"); ("Label", Str "A"); ("X FOM", Num 1); ("Y FOM", Num 10)];
      [("ID", Str "COMP2"); ("Label", Str "B"); ("X FOM", Num 2); ("Y FOM", Num 20)];
      [("ID", Str "PROD1"); ("Label", Str "P"); ("X FOM", Num 5); ("Y FOM", Num 1)] ].

(** Ordinary least squares by the normal equations, in exact arithmetic: a
    fitting routine to run the theorem on. *)
Definition normal_equations_fit (f : R -> R -> R -> R) (x y : ndarray)
  : outcome (R * R) :=
  let n := INR (List.length x) in
  let sx := fold_right Rplus 0%R x in
  let sy := fold_right Rplus 0%R y in
  let sxx := fold_right Rplus 0%R (map (fun xi => xi * xi) x)%R in
  let sxy := fold_right Rplus 0%R
               (map (fun xy => fst xy * snd xy) (combine x y))%R in
  let slope := ((n * sxy - sx * sy) / (n * sxx - sx * sx))%R in
  Return (slope, ((sy - slope * sx) / n)%R).

(** [lo] is the least [X FOM] of the rows, [hi] the greatest. *)
Definition least_x (df : DataFrame) (lo : R) : Prop :=
  In lo (fom_values "X FOM" (rows df))
  /\ Forall (fun x => (lo <= x)%R) (fom_values "X FOM" (rows df)).

Definition greatest_x (df : DataFrame) (hi : R) : Prop :=
  In hi (fom_values "X FOM" (rows df))
  /\ Forall (fun x => (x <= hi)%R) (fom_values "X FOM" (rows df)).

(** The row's [X FOM] is a positive number, as the data model has it. *)
Definition x_positive (r : Row) : Prop :=
  exists x, row_get "X FOM" r = Num x /\ (0 < x)%R.


(** Every character of [s] satisfies [p]. *)
Fixpoint all_chars (p : ascii -> bool) (s : string) : bool :=
  match s with
  | EmptyString => true
  | String c s' => p c && all_chars p s'
  end.

(** What a match is, apart from the order in which the matcher tries them:
    [Matches r s g s' g'] says that [r] matches the text between [s] and its
    suffix [s'], taking the groups from [g] to [g']. *)
Inductive Matches : regex -> string -> groups -> string -> groups -> Prop :=
| MChr c s g : Matches (Chr c) (String c s) g s g
| MCls (p : ascii -> bool) d s g :
    p d = true -> Matches (Cls p) (String d s) g s g
| MCat r1 r2 s g s1 g1 s2 g2 :
    Matches r1 s g s1 g1 -> Matches r2 s1 g1 s2 g2 ->
    Matches (Cat r1 r2) s g s2 g2
| MOptSome r s g s' g' : Matches r s g s' g' -> Matches (Opt r) s g s' g'
| MOptNone r s g : Matches (Opt r) s g s g
| MStarStop r s g : Matches (Star r) s g s g
| MStarStep r s g s1 g1 s2 g2 :
    Matches r s g s1 g1 -> Matches (Star r) s1 g1 s2 g2 ->
    Matches (Star r) s g s2 g2
| MGrp n r s g s' g' :
    Matches r s g s' g' ->
    Matches (Grp n r) s g s'
      ((n, substring 0 (String.length s - String.length s') s) :: g').

(** The regular expression sets no group. *)
Fixpoint groupless (r : regex) : bool :=
  match r with
  | Chr _ | Cls _ => true
  | Cat r1 r2 => groupless r1 && groupless r2
  | Star r1 | Opt r1 => groupless r1
  | Grp _ _ => false
  end.

(** The loop of [rmatch] on [Star r], with [step] for [rmatch r]. *)
Definition star_loop
  (step : string -> groups -> (string -> groups -> option groups) -> option groups)
  (k : string -> groups -> option groups)
  : nat -> string -> groups -> option groups :=
  fix loop (fuel : nat) (s : string) (g : groups) {struct fuel} : option groups :=
    match fuel with
    | O => k s g
    | S fuel' =>
        match
          step s g
            (fun s' g' =>
               if (String.length s' <? String.length s)%nat
               then loop fuel' s' g'
               else None)
        with
        | Some m => Some m
        | None => k s g
        end
    end.

(** [s] is empty or starts with a character outside [p]: a greedy repetition
    of [p] ends before [s]. *)
Definition stops (p : ascii -> bool) (s : string) : bool :=
  match s with
  | EmptyString => true
  | String c _ => negb (p c)
  end.

(** The text after the [x] of a formula: an optional plus sign followed by
    blanks. *)
Definition sign_text (sign : option string) : string :=
  match sign with
  | Some w6 => String "+" w6
  | None => EmptyString
  end.

(** A formula text: [y w1 = w2 d1 w3 * w4 x w5 sign d2 tl], where the [w]s are
    blanks, [d1] is the slope, [d2] the intercept and [tl] what follows. *)
Definition formula_text (w1 w2 d1 w3 w4 w5 : string) (sign : option string)
  (d2 tl : string) : string :=
  (String "y" w1 ++ String "=" w2 ++ d1 ++ w3 ++ String "*" w4
   ++ String "x" w5 ++ sign_text sign ++ d2 ++ tl)%string.

(** What may follow the intercept [d2]: no character of the intercept's
    class, and after an empty intercept no blank and no plus sign either. *)
Definition tail_ok (d2 tl : string) : bool :=
  stops digit_dot_or_minus tl
  && match d2 with
     | EmptyString => stops is_space tl && stops (Ascii.eqb "+") tl
     | String _ _ => true
     end.

(** The product rows of a frame. *)
Definition products (df : DataFrame) : list Row :=
  filter (starts_with "PROD") (rows df).

(** The annotation [plot_fom] draws for a row: its [Label] at its point. *)
Definition label_call (r : Row) : plt_call :=
  plt_text (row_get "X FOM" r) (row_get "Y FOM" r) (row_get "Label" r).

Definition is_text_call (c : plt_call) : bool :=
  match c with
  | plt_text _ _ _ => true
  | _ => false
  end.

Definition is_scatter_call (c : plt_call) : bool :=
  match c with
  | plt_scatter _ _ _ _ => true
  | _ => false
  end.

(** The calls [plot_fom] makes when everything before the reference line
    succeeds, for samples [x_vals] with values [y_vals]. *)
Definition plot_calls (df : DataFrame) (x_vals y_vals : ndarray)
  : list plt_call :=
  [plt_figure 10 7;
   plt_scatter (map (row_get "X FOM") (competitors df))
     (map (row_get "Y FOM") (competitors df)) "red" "Competitor"]
  ++ map label_call (competitors df)
  ++ [plt_scatter (map (row_get "X FOM") (products df))
        (map (row_get "Y FOM") (products df)) "blue" "Product"]
  ++ map label_call (products df)
  ++ [plt_plot x_vals y_vals "--" "green" "SOTA Line";
      plt_xscale "log";
      plt_xlabel (first_value_or_default df "X FOM Name" default_x_name)
        " (log scale)";
      plt_ylabel (first_value_or_default df "Y FOM Name" default_y_name);
      plt_title (first_value_or_default df "Chart Title" default_title);
      plt_grid; plt_legend; plt_tight_layout; plt_show].

(** A sheet without a [Label] column. *)
Definition unlabeled_example : DataFrame :=
  mkDataFrame ["ID"; "X FOM"; "Y FOM"]
    [ [("ID", Str "PROD1"); ("X FOM", Num 5); ("Y FOM", Num 1)] ].

(** The end-to-end example with two more products. *)
Definition more_products_example : DataFrame :=
  mkDataFrame ["ID"; "Label"; "X FOM"; "Y FOM"; "SOTA Override"]
    [ [("ID", Str "PROD7"); ("Label", Str "R"); ("X FOM", Num 3); ("Y FOM", Num 100)];
      [("ID", Str "COMP1"); ("Label", Str "A"); ("X FOM", Num 1); ("Y FOM", Num 10)];
      [("ID", Str "COMP2"); ("Label", Str "B"); ("X FOM", Num 2); ("Y FOM", Num 20)];
      [("ID", Str "PROD1"); ("Label", Str "P"); ("X FOM", Num 5); ("Y FOM", Num 1)];
      [("ID", Str "PROD8"); ("Label", Str "S"); ("X FOM", Num 9); ("Y FOM", Num 0)] ].

(** The outcome is not a call of [exit]. *)
Definition never_exits {A : Type} (o : outcome A) : Prop :=
  forall n, o <> Exit n.

(** The rows of a sheet that the loader keeps. *)
Definition kept_rows (df : DataFrame) : list Row :=
  filter (fun r => negb (fom_missing r)) (rows df).

(** The override frame with a second formula two rows below the first. *)
Definition two_formulas_example (s later : string) : DataFrame :=
  mkDataFrame ["ID"; "Label"; "X FOM"; "Y FOM"; "SOTA Override"]
    [ [("ID", Str "COMP1"); ("Label", Str "A"); ("X FOM", Num 1); ("Y FOM", Num 10);
       ("SOTA Override", Str s)];
      [("ID", Str "COMP2"); ("Label", Str "B"); ("X FOM", Num 2); ("Y FOM", Num 20)];
      [("ID", Str "PROD1"); ("Label", Str "P"); ("X FOM", Num 5); ("Y FOM", Num 1);
       ("SOTA Override", Str later)] ].

(** * Properties *)

(** ** Data frames *)

Lemma has_column_In (df : DataFrame) (name : string) :
  has_column df name = true <-> In name (columns df).
Proof.
  unfold has_column. rewrite existsb_exists. split.
  - intros [x [Hin Heq]]. apply String.eqb_eq in Heq. now subst.
  - intros Hin. exists name. split; [assumption | apply String.eqb_refl].
Qed.

Lemma getitem_column (df : DataFrame) (name : string) :
  has_column df name = true ->
  getitem df name = Return (map (row_get name) (rows df)).
Proof. intros H. unfold getitem. now rewrite H. Qed.

Lemma getitem_no_column (df : DataFrame) (name : string) :
  has_column df name = false -> getitem df name = Raise KeyError.
Proof. intros H. unfold getitem. now rewrite H. Qed.

Lemma values0_dropna (s : Series) :
  Series_empty (Series_dropna s) = false ->
  exists v, find notna s = Some v /\ values0 (Series_dropna s) = Return v.
Proof.
  unfold Series_dropna. induction s as [|c s IH]; simpl.
  - discriminate.
  - destruct (notna c) eqn:Hc; simpl.
    + intros _. now exists c.
    + exact IH.
Qed.

Lemma dropna_empty_find (s : Series) :
  Series_empty (Series_dropna s) = true -> find notna s = None.
Proof.
  unfold Series_dropna. induction s as [|c s IH]; simpl.
  - reflexivity.
  - destruct (notna c); simpl; [discriminate | exact IH].
Qed.

(** ** The loader *)

Lemma complete_on_fom (r : Row) :
  complete_on ["X FOM"; "Y FOM"] r = negb (fom_missing r).
Proof.
  unfold complete_on, fom_missing, isna. simpl.
  destruct (notna (row_get "X FOM" r)), (notna (row_get "Y FOM" r)); reflexivity.
Qed.

Lemma filter_partition_length {A : Type} (p : A -> bool) (l : list A) :
  (List.length (filter (fun a => negb (p a)) l) + List.length (filter p l)
   = List.length l)%nat.
Proof.
  induction l as [|a l IH]; simpl; [reflexivity|].
  destruct (p a); simpl; lia.
Qed.

(** C7.  When the sheet is read and has both FOM columns, [load_fom_data]
    returns a frame with the same columns whose rows are exactly the rows of
    the sheet with neither [X FOM] nor [Y FOM] missing, in the order of the
    sheet; every row it returns has both values, and the number of rows drops
    by the number of rows with a missing value. *)
Theorem load_fom_data_drops_missing
  (read_excel : string -> string -> outcome DataFrame)
  (filepath : string) (df : DataFrame) :
  read_excel filepath "FOM_Data" = Return df ->
  has_column df "X FOM" = true ->
  has_column df "Y FOM" = true ->
  exists df',
    load_fom_data read_excel filepath = Return df'
    /\ columns df' = columns df
    /\ rows df' = filter (fun r => negb (fom_missing r)) (rows df)
    /\ Forall (fun r => row_get "X FOM" r <> NaN /\ row_get "Y FOM" r <> NaN)
         (rows df')
    /\ (List.length (rows df') + List.length (filter fom_missing (rows df))
        = List.length (rows df))%nat.
Proof.
  intros Hread Hx Hy.
  exists (mkDataFrame (columns df)
            (filter (fun r => negb (fom_missing r)) (rows df))).
  split; [|split; [reflexivity|split; [reflexivity|split]]].
  - unfold load_fom_data. rewrite Hread. simpl.
    unfold DataFrame_dropna. simpl. rewrite Hx, Hy. simpl.
    f_equal. f_equal. apply filter_ext. intros r. apply complete_on_fom.
  - simpl. apply Forall_forall. intros r Hin.
    apply filter_In in Hin. destruct Hin as [_ Hkeep].
    unfold fom_missing, isna in Hkeep.
    destruct (row_get "X FOM" r); destruct (row_get "Y FOM" r);
      simpl in Hkeep; try discriminate; split; discriminate.
  - simpl. apply filter_partition_length.
Qed.

(** A sheet without one of the FOM columns ends the program with status 1. *)
Lemma load_fom_data_missing_column
  (read_excel : string -> string -> outcome DataFrame)
  (filepath : string) (df : DataFrame) :
  read_excel filepath "FOM_Data" = Return df ->
  has_column df "X FOM" && has_column df "Y FOM" = false ->
  load_fom_data read_excel filepath = Exit 1.
Proof.
  intros Hread H. unfold load_fom_data. rewrite Hread. simpl.
  unfold DataFrame_dropna. simpl. rewrite andb_true_r. now rewrite H.
Qed.

Lemma load_fom_data_drops_missing_witness :
  exists df',
    load_fom_data (fun _ _ => Return sheet_example) "fom.xlsx" = Return df'
    /\ columns df' = columns sheet_example
    /\ rows df' = filter (fun r => negb (fom_missing r)) (rows sheet_example)
    /\ Forall (fun r => row_get "X FOM" r <> NaN /\ row_get "Y FOM" r <> NaN)
         (rows df')
    /\ (List.length (rows df')
        + List.length (filter fom_missing (rows sheet_example))
        = List.length (rows sheet_example))%nat.
Proof.
  apply (load_fom_data_drops_missing (fun _ _ => Return sheet_example)
           "fom.xlsx" sheet_example); reflexivity.
Defined.

(** ** Metadata *)

Lemma metadata_field_spec (df : DataFrame) (name : string) (default : cell) :
  metadata_field df name default
  = Return (first_value_or_default df name default).
Proof.
  unfold metadata_field, first_value_or_default.
  destruct (has_column df name) eqn:Hc; [|reflexivity].
  rewrite (getitem_column _ _ Hc). simpl.
  destruct (Series_empty (Series_dropna (map (row_get name) (rows df)))) eqn:He;
    simpl.
  - now rewrite (dropna_empty_find _ He).
  - destruct (values0_dropna _ He) as [v [Hf Hv]]. now rewrite Hf, Hv.
Qed.

(** C8.  [get_chart_metadata] returns on every frame, and each of the three
    values is the first non-empty value of its column when the column exists
    and has one, and the fixed default otherwise. *)
Theorem get_chart_metadata_total (df : DataFrame) :
  get_chart_metadata df
  = Return
      (first_value_or_default df "Chart Title"
         (Str "Figure of Merit (FOM) Scatter Plot"),
       first_value_or_default df "X FOM Name" (Str "X FOM"),
       first_value_or_default df "Y FOM Name" (Str "Y FOM")).
Proof.
  unfold get_chart_metadata. now rewrite !metadata_field_spec.
Qed.

(** ** Selecting rows by the prefix of [ID] *)

Lemma mask_of_text_ids (p : string) (rs : list Row) :
  Forall id_is_text rs ->
  forallb (fun b : option bool => match b with Some _ => true | None => false end)
    (str_startswith p (map (row_get "ID") rs)) = true
  /\ select_rows rs (str_startswith p (map (row_get "ID") rs))
     = filter (starts_with p) rs.
Proof.
  induction 1 as [|r rs [s Hs] _ [IHm IHs]]; simpl.
  - split; reflexivity.
  - unfold starts_with at 1. rewrite Hs. simpl. split; [exact IHm|].
    destruct (String.prefix p s); now rewrite IHs.
Qed.

Lemma select_by_prefix (df : DataFrame) (p : string) :
  Forall id_is_text (rows df) ->
  DataFrame_mask df (str_startswith p (map (row_get "ID") (rows df)))
  = Return (mkDataFrame (columns df) (filter (starts_with p) (rows df))).
Proof.
  intros Hid. destruct (mask_of_text_ids p (rows df) Hid) as [Hm Hs].
  unfold DataFrame_mask. now rewrite Hm, Hs.
Qed.

Lemma has_column_nonempty (df : DataFrame) (name : string) :
  has_column df name = true -> columns df <> [].
Proof.
  unfold has_column. intros H Hnil. rewrite Hnil in H. discriminate.
Qed.

(** ** The resolver without competitors, and with one *)

(** C2.  On a dataset none of whose rows has an [ID] starting with COMP, and
    whose override column yields no function, the resolver returns (it does
    not raise or exit) a function whose value is 0 at every sample. *)
Theorem resolve_sota_no_competitor
  (curve_fit : (R -> R -> R -> R) -> ndarray -> ndarray -> outcome (R * R))
  (df : DataFrame) :
  has_column df "ID" = true ->
  Forall id_is_text (rows df) ->
  filter (starts_with "COMP") (rows df) = [] ->
  parse_sota_override df = Return None ->
  exists f,
    resolve_sota curve_fit df = Return f
    /\ compute_sota_auto curve_fit df = Return f
    /\ forall x, f x = Return (map (fun _ => 0%R) x).
Proof.
  intros Hcol Hid Hnone Hover.
  exists (fun x => np_full_like x (Num 0)).
  assert (Hauto : compute_sota_auto curve_fit df
                  = Return (fun x => np_full_like x (Num 0))).
  { unfold compute_sota_auto. rewrite (getitem_column _ _ Hcol). simpl.
    rewrite (select_by_prefix _ _ Hid). simpl.
    unfold DataFrame_empty. simpl. now rewrite Hnone. }
  split; [|split].
  - unfold resolve_sota. rewrite Hover. simpl. exact Hauto.
  - exact Hauto.
  - reflexivity.
Qed.

(** C3.  On a dataset with exactly one row [r] whose [ID] starts with COMP,
    whose [Y FOM] is the number [v], and whose override column yields no
    function, the resolver returns a function whose value is [v] at every
    sample. *)
Theorem resolve_sota_one_competitor
  (curve_fit : (R -> R -> R -> R) -> ndarray -> ndarray -> outcome (R * R))
  (df : DataFrame) (r : Row) (v : R) :
  has_column df "ID" = true ->
  has_column df "Y FOM" = true ->
  Forall id_is_text (rows df) ->
  filter (starts_with "COMP") (rows df) = [r] ->
  row_get "Y FOM" r = Num v ->
  parse_sota_override df = Return None ->
  exists f,
    resolve_sota curve_fit df = Return f
    /\ compute_sota_auto curve_fit df = Return f
    /\ forall x, f x = Return (map (fun _ => v) x).
Proof.
  intros Hcol Hy Hid Hone Hv Hover.
  exists (fun x => np_full_like x (Num v)).
  assert (Hauto : compute_sota_auto curve_fit df
                  = Return (fun x => np_full_like x (Num v))).
  { unfold compute_sota_auto. rewrite (getitem_column _ _ Hcol). simpl.
    rewrite (select_by_prefix _ _ Hid). simpl.
    unfold DataFrame_empty. simpl. rewrite Hone.
    destruct (columns df) as [|c cs] eqn:Hcs.
    { exfalso. now apply (has_column_nonempty _ _ Hcol). }
    simpl. unfold getitem, has_column. simpl.
    unfold has_column in Hy. rewrite Hcs in Hy. simpl in Hy. rewrite Hy.
    simpl. now rewrite Hv. }
  split; [|split].
  - unfold resolve_sota. rewrite Hover. simpl. exact Hauto.
  - exact Hauto.
  - reflexivity.
Qed.

Lemma resolve_sota_no_competitor_witness :
  exists f,
    resolve_sota no_fit no_competitor_example = Return f
    /\ compute_sota_auto no_fit no_competitor_example = Return f
    /\ forall x, f x = Return (map (fun _ => 0%R) x).
Proof.
  apply (resolve_sota_no_competitor no_fit no_competitor_example).
  - reflexivity.
  - repeat constructor; eexists; reflexivity.
  - reflexivity.
  - reflexivity.
Defined.

Lemma resolve_sota_one_competitor_witness :
  exists f,
    resolve_sota no_fit one_competitor_example = Return f
    /\ compute_sota_auto no_fit one_competitor_example = Return f
    /\ forall x, f x = Return (map (fun _ => 4%R) x).
Proof.
  apply (resolve_sota_one_competitor no_fit one_competitor_example
           [("ID", Str "COMP1"); ("Label", Str "A"); ("X FOM", Num 2); ("Y FOM", Num 4)]
           4%R).
  - reflexivity.
  - reflexivity.
  - repeat constructor; eexists; reflexivity.
  - reflexivity.
  - reflexivity.
  - reflexivity.
Defined.

(** ** The override parser *)

Lemma parse_sota_override_first (df : DataFrame) (col : Series) (v : cell)
  (rest : Series) :
  getitem df "SOTA Override" = Return col ->
  Series_dropna col = v :: rest ->
  parse_sota_override df = parse_formula v.
Proof.
  intros Hcol Hfirst. unfold parse_sota_override.
  rewrite Hcol. simpl. now rewrite Hfirst.
Qed.

Lemma parse_sota_override_blank (df : DataFrame) (col : Series) :
  getitem df "SOTA Override" = Return col ->
  Series_dropna col = [] ->
  parse_sota_override df = Return None.
Proof.
  intros Hcol Hnone. unfold parse_sota_override.
  rewrite Hcol. simpl. now rewrite Hnone.
Qed.

Lemma parse_sota_override_no_column (df : DataFrame) :
  has_column df "SOTA Override" = false ->
  parse_sota_override df = Raise KeyError.
Proof.
  intros H. unfold parse_sota_override.
  now rewrite (getitem_no_column _ _ H).
Qed.

Lemma parse_formula_no_match (s : string) :
  re_search override_pattern s = None ->
  parse_formula (Str s) = Return None.
Proof. intros H. unfold parse_formula. simpl. now rewrite H. Qed.

(** What [parse_formula] does with a match, by the texts of the two groups. *)
Lemma parse_formula_match (s g1 g2 : string) (m : groups) :
  re_search override_pattern s = Some m ->
  match_group 1 m = Some g1 ->
  match_group 2 m = Some g2 ->
  parse_formula (Str s)
  = (slope <- float g1 ;;
     intercept <- (match g2 with
                   | String _ _ => float g2
                   | EmptyString => Return 0%R
                   end) ;;
     Return (Some (fun x => Return (affine slope intercept x)))).
Proof.
  intros Hs H1 H2. unfold parse_formula. simpl. rewrite Hs.
  unfold float_group, group_truthy. rewrite H1, H2.
  destruct g2; reflexivity.
Qed.

Lemma float_decimal (s : string) (m : Z) (n : nat) :
  parse_decimal s = Some (m, n) ->
  float s = Return (IZR m / IZR (10 ^ Z.of_nat n))%R.
Proof. intros H. unfold float. now rewrite H. Qed.

Lemma float_invalid (s : string) :
  parse_decimal s = None -> float s = Raise ValueError.
Proof. intros H. unfold float. now rewrite H. Qed.

Lemma affine_ext (a b a' b' : R) (x : ndarray) :
  a = a' -> b = b' -> affine a b x = affine a' b' x.
Proof. intros -> ->. reflexivity. Qed.

Lemma parse_formula_slope_intercept :
  exists f, parse_formula (Str "y = 1.5 * x + 2") = Return (Some f)
            /\ forall x, f x = Return (affine 1.5 2 x).
Proof.
  rewrite (parse_formula_match "y = 1.5 * x + 2" "1.5" "2"
             [(2, "2"); (1, "1.5")]%nat)
    by (vm_compute; reflexivity).
  rewrite (float_decimal "1.5" 15 1), (float_decimal "2" 2 0)
    by (vm_compute; reflexivity).
  simpl. eexists. split; [reflexivity|].
  intros x. simpl. first [reflexivity | f_equal; apply affine_ext; lra].
Qed.

Lemma parse_formula_slope_only :
  exists f, parse_formula (Str "y = 1.5 * x") = Return (Some f)
            /\ forall x, f x = Return (affine 1.5 0 x).
Proof.
  rewrite (parse_formula_match "y = 1.5 * x" "1.5" ""
             [(2, ""); (1, "1.5")]%nat)
    by (vm_compute; reflexivity).
  rewrite (float_decimal "1.5" 15 1)
    by (vm_compute; reflexivity).
  simpl. eexists. split; [reflexivity|].
  intros x. simpl. first [reflexivity | f_equal; apply affine_ext; lra].
Qed.

(** C4.  When the first non-empty cell of [SOTA Override] is the text
    [y = 1.5 * x + 2], the parser returns a function that maps every sample
    [xi] to [1.5 * xi + 2]; when it is [y = 1.5 * x], the parser returns a
    function that maps every sample [xi] to [1.5 * xi + 0]. *)
Theorem parse_sota_override_slope_intercept
  (df : DataFrame) (col rest : Series) (s : string) :
  getitem df "SOTA Override" = Return col ->
  Series_dropna col = Str s :: rest ->
  (s = "y = 1.5 * x + 2" ->
   exists f, parse_sota_override df = Return (Some f)
             /\ forall x, f x = Return (map (fun xi => (1.5 * xi + 2)%R) x))
  /\ (s = "y = 1.5 * x" ->
      exists f, parse_sota_override df = Return (Some f)
                /\ forall x, f x = Return (map (fun xi => (1.5 * xi + 0)%R) x)).
Proof.
  intros Hcol Hfirst.
  rewrite (parse_sota_override_first _ _ _ _ Hcol Hfirst).
  split; intros ->.
  - destruct parse_formula_slope_intercept as [f [Hf Hlin]].
    exists f. split; [exact Hf|]. intros x. rewrite Hlin. reflexivity.
  - destruct parse_formula_slope_only as [f [Hf Hlin]].
    exists f. split; [exact Hf|]. intros x. rewrite Hlin. reflexivity.
Qed.

Lemma parse_sota_override_slope_intercept_witness :
  (exists f, parse_sota_override (override_frame "y = 1.5 * x + 2")
             = Return (Some f)
             /\ forall x, f x = Return (map (fun xi => (1.5 * xi + 2)%R) x))
  /\ (exists f, parse_sota_override (override_frame "y = 1.5 * x")
                = Return (Some f)
                /\ forall x, f x = Return (map (fun xi => (1.5 * xi + 0)%R) x)).
Proof.
  split.
  - apply (parse_sota_override_slope_intercept
             (override_frame "y = 1.5 * x + 2")
             [NaN; Str "y = 1.5 * x + 2"; NaN] [] "y = 1.5 * x + 2");
      reflexivity.
  - apply (parse_sota_override_slope_intercept
             (override_frame "y = 1.5 * x")
             [NaN; Str "y = 1.5 * x"; NaN] [] "y = 1.5 * x");
      reflexivity.
Defined.

Lemma resolve_sota_falls_through
  (curve_fit : (R -> R -> R -> R) -> ndarray -> ndarray -> outcome (R * R))
  (df : DataFrame) :
  parse_sota_override df = Return None ->
  resolve_sota curve_fit df = compute_sota_auto curve_fit df.
Proof. intros H. unfold resolve_sota. now rewrite H. Qed.

(** X16.  With the column present, an override column without a value, or
    whose first value matches nowhere (a negative slope, for one), hands over
    to the automatic fit: the resolver's outcome is that of
    [compute_sota_auto]. *)
Lemma resolve_sota_without_formula
  (curve_fit : (R -> R -> R -> R) -> ndarray -> ndarray -> outcome (R * R))
  (df : DataFrame) :
  has_column df "SOTA Override" = true ->
  (Series_dropna (map (row_get "SOTA Override") (rows df)) = []
   \/ exists s rest,
        Series_dropna (map (row_get "SOTA Override") (rows df)) = Str s :: rest
        /\ re_search override_pattern s = None) ->
  resolve_sota curve_fit df = compute_sota_auto curve_fit df.
Proof.
  intros Hcol H. apply resolve_sota_falls_through.
  pose proof (getitem_column _ _ Hcol) as Hget.
  destruct H as [Hnone | [s [rest [Hfirst Hno]]]].
  - exact (parse_sota_override_blank _ _ Hget Hnone).
  - rewrite (parse_sota_override_first _ _ _ _ Hget Hfirst).
    exact (parse_formula_no_match _ Hno).
Qed.

(** C5, at a sheet that has no [SOTA Override] column: the parser raises
    [KeyError], and so do the resolver and the program, where the claim has
    them go on to the automatic fit. *)
Theorem parse_sota_override_absent_column :
  has_column sheet_example "SOTA Override" = false
  /\ parse_sota_override sheet_example = Raise KeyError
  /\ (forall curve_fit, resolve_sota curve_fit sheet_example = Raise KeyError)
  /\ (forall curve_fit float_log10 float_pow10,
        main "fom.xlsx" (fun _ _ => Return sheet_example) curve_fit
          float_log10 float_pow10
        = Raise KeyError).
Proof.
  repeat split; intros; reflexivity.
Qed.

(** The sibling forms of the failing input of C6: a sign followed at once by
    its digits, and a plus sign followed by blanks. *)
Lemma parse_formula_minus_closed :
  exists f, parse_formula (Str "y = 2 * x -3") = Return (Some f)
            /\ forall x, f x = Return (affine 2 (-3) x).
Proof.
  rewrite (parse_formula_match "y = 2 * x -3" "2" "-3"
             [(2, "-3"); (1, "2")]%nat)
    by (vm_compute; reflexivity).
  rewrite (float_decimal "2" 2 0), (float_decimal "-3" (-3) 0)
    by (vm_compute; reflexivity).
  simpl. eexists. split; [reflexivity|].
  intros x. simpl. first [reflexivity | f_equal; apply affine_ext; lra].
Qed.

Lemma parse_formula_plus_spaced :
  exists f, parse_formula (Str "y = 2 * x + 3") = Return (Some f)
            /\ forall x, f x = Return (affine 2 3 x).
Proof.
  rewrite (parse_formula_match "y = 2 * x + 3" "2" "3"
             [(2, "3"); (1, "2")]%nat)
    by (vm_compute; reflexivity).
  rewrite (float_decimal "2" 2 0), (float_decimal "3" 3 0)
    by (vm_compute; reflexivity).
  simpl. eexists. split; [reflexivity|].
  intros x. simpl. first [reflexivity | f_equal; apply affine_ext; lra].
Qed.

(** C6, at the claim's own example [y = 2 * x - 3]: the parser raises
    [ValueError] where the claim has it return [x -> 2 * x - 3]. *)
Theorem parse_sota_override_spaced_minus :
  parse_sota_override (override_frame "y = 2 * x - 3") = Raise ValueError.
Proof.
  rewrite (parse_sota_override_first (override_frame "y = 2 * x - 3")
             [NaN; Str "y = 2 * x - 3"; NaN] (Str "y = 2 * x - 3") [])
    by reflexivity.
  rewrite (parse_formula_match "y = 2 * x - 3" "2" "-"
             [(2, "-"); (1, "2")]%nat)
    by (vm_compute; reflexivity).
  rewrite (float_decimal "2" 2 0), (float_invalid "-")
    by (vm_compute; reflexivity).
  reflexivity.
Qed.

(** C10.  Two non-empty override texts on which the program raises
    [ValueError]: in [y = 2 * x - 3] the second group is the lone sign, in
    [y = 1..2 * x] the first group is [1..2]; [float] refuses both, and the
    exception leaves the parser and the resolver. *)
Theorem parse_sota_override_raises :
  (re_search override_pattern "y = 2 * x - 3" = Some [(2, "-"); (1, "2")]%nat
   /\ float "-" = Raise ValueError
   /\ parse_formula (Str "y = 2 * x - 3") = Raise ValueError
   /\ forall curve_fit,
        resolve_sota curve_fit (override_frame "y = 2 * x - 3")
        = Raise ValueError)
  /\ (re_search override_pattern "y = 1..2 * x"
      = Some [(2, ""); (1, "1..2")]%nat
      /\ float "1..2" = Raise ValueError
      /\ parse_formula (Str "y = 1..2 * x") = Raise ValueError
      /\ forall curve_fit,
           resolve_sota curve_fit (override_frame "y = 1..2 * x")
           = Raise ValueError).
Proof.
  assert (Hminus : parse_formula (Str "y = 2 * x - 3") = Raise ValueError).
  { rewrite (parse_formula_match "y = 2 * x - 3" "2" "-"
               [(2, "-"); (1, "2")]%nat)
    by (vm_compute; reflexivity).
    rewrite (float_decimal "2" 2 0), (float_invalid "-")
    by (vm_compute; reflexivity).
    reflexivity. }
  assert (Hdots : parse_formula (Str "y = 1..2 * x") = Raise ValueError).
  { rewrite (parse_formula_match "y = 1..2 * x" "1..2" ""
               [(2, ""); (1, "1..2")]%nat)
    by (vm_compute; reflexivity).
    rewrite (float_invalid "1..2")
    by (vm_compute; reflexivity).
    reflexivity. }
  split; (split; [vm_compute; reflexivity|]);
    (split; [apply float_invalid; vm_compute; reflexivity|]);
    (split; [assumption|]); intros curve_fit; unfold resolve_sota.
  - rewrite (parse_sota_override_first (override_frame "y = 2 * x - 3")
               [NaN; Str "y = 2 * x - 3"; NaN] (Str "y = 2 * x - 3") [])
    by reflexivity.
    now rewrite Hminus.
  - rewrite (parse_sota_override_first (override_frame "y = 1..2 * x")
               [NaN; Str "y = 1..2 * x"; NaN] (Str "y = 1..2 * x") [])
    by reflexivity.
    now rewrite Hdots.
Qed.

(** ** The automatic fit *)





Lemma to_ndarray_numbers (name : string) (rs : list Row) :
  Forall (fun r => exists v, row_get name r = Num v) rs ->
  to_ndarray (map (row_get name) rs) = Return (fom_values name rs).
Proof.
  induction 1 as [|r rs [v Hv] _ IH]; simpl; [reflexivity|].
  rewrite Hv. simpl. unfold fom_values in IH. now rewrite IH.
Qed.

Lemma two_abscissas_two_rows (rs : list Row) :
  (exists r1 r2 x1 x2,
      In r1 rs /\ In r2 rs
      /\ row_get "X FOM" r1 = Num x1 /\ row_get "X FOM" r2 = Num x2
      /\ x1 <> x2) ->
  exists ra rb rest, rs = ra :: rb :: rest.
Proof.
  intros [r1 [r2 [x1 [x2 [Hin1 [Hin2 [Hx1 [Hx2 Hne]]]]]]]].
  destruct rs as [|ra [|rb rest]].
  - contradiction.
  - exfalso. destruct Hin1 as [<- | []]. destruct Hin2 as [<- | []].
    rewrite Hx1 in Hx2. injection Hx2 as E. now apply Hne.
  - now exists ra, rb, rest.
Qed.





(** ** The samples of the reference line *)

Lemma fold_left_Rmin (vs : list R) (v : R) :
  (fold_left Rmin vs v = v \/ In (fold_left Rmin vs v) vs)
  /\ (fold_left Rmin vs v <= v)%R
  /\ Forall (fun w => (fold_left Rmin vs v <= w)%R) vs.
Proof.
  revert v. induction vs as [|w vs IH]; intros v; cbn [fold_left].
  - split; [now left | split; [apply Rle_refl | constructor]].
  - destruct (IH (Rmin v w)) as [Hin [Hle Hall]].
    pose proof (Rmin_l v w) as Hl. pose proof (Rmin_r v w) as Hr.
    split; [|split].
    + destruct Hin as [E | Hin]; [|right; now right].
      rewrite E. unfold Rmin. destruct (Rle_dec v w); [now left | right; now left].
    + lra.
    + constructor; [lra | exact Hall].
Qed.

Lemma fold_left_Rmax (vs : list R) (v : R) :
  (fold_left Rmax vs v = v \/ In (fold_left Rmax vs v) vs)
  /\ (v <= fold_left Rmax vs v)%R
  /\ Forall (fun w => (w <= fold_left Rmax vs v)%R) vs.
Proof.
  revert v. induction vs as [|w vs IH]; intros v; cbn [fold_left].
  - split; [now left | split; [apply Rle_refl | constructor]].
  - destruct (IH (Rmax v w)) as [Hin [Hle Hall]].
    pose proof (Rmax_l v w) as Hl. pose proof (Rmax_r v w) as Hr.
    split; [|split].
    + destruct Hin as [E | Hin]; [|right; now right].
      rewrite E. unfold Rmax. destruct (Rle_dec v w); [right; now left | now left].
    + lra.
    + constructor; [lra | exact Hall].
Qed.

Lemma numbers_of_numeric (name : string) (rs : list Row) :
  Forall (fun r => exists v, row_get name r = Num v) rs ->
  numbers (map (row_get name) rs) = Return (fom_values name rs).
Proof.
  induction 1 as [|r rs [v Hv] _ IH]; cbn [map numbers]; [reflexivity|].
  rewrite Hv. cbn [numbers]. rewrite IH. unfold fom_values. cbn [bind map].
  now rewrite Hv.
Qed.

Lemma np_log10_positive (float_log10 : R -> R) (x : R) :
  (0 < x)%R -> np_log10 float_log10 (Num x) = Return (float_log10 x).
Proof.
  intros Hx. unfold np_log10. destruct (Rlt_dec 0 x); [reflexivity | contradiction].
Qed.

Lemma np_linspace_length (start stop : R) (num : nat) :
  List.length (np_linspace start stop num) = num.
Proof.
  destruct num as [|[|n]]; try reflexivity.
  unfold np_linspace. rewrite length_app, length_map, length_seq.
  cbn [List.length]. lia.
Qed.



Lemma np_logspace_length (float_pow10 : R -> R) (start stop : R) (num : nat) :
  List.length (np_logspace float_pow10 start stop num) = num.
Proof. unfold np_logspace. now rewrite length_map, np_linspace_length. Qed.





Lemma getitem_selected (df : DataFrame) (rs : list Row) (name : string) :
  has_column df name = true ->
  getitem (mkDataFrame (columns df) rs) name = Return (map (row_get name) rs).
Proof. intros H. exact (getitem_column (mkDataFrame (columns df) rs) name H). Qed.

Lemma x_positive_values (rs : list Row) :
  Forall x_positive rs ->
  Forall (fun r => exists v, row_get "X FOM" r = Num v) rs
  /\ Forall (fun x => (0 < x)%R) (fom_values "X FOM" rs).
Proof.
  induction 1 as [|r rs [x [Hx Hpos]] _ [IH1 IH2]]; cbn [fom_values map].
  - split; constructor.
  - split; constructor; try assumption.
    + now exists x.
    + now rewrite Hx.
Qed.

Lemma Series_min_least (rs : list Row) :
  rs <> [] ->
  Forall x_positive rs ->
  exists lo,
    Series_min (map (row_get "X FOM") rs) = Return (Num lo)
    /\ In lo (fom_values "X FOM" rs)
    /\ Forall (fun x => (lo <= x)%R) (fom_values "X FOM" rs)
    /\ (0 < lo)%R.
Proof.
  intros Hne Hpos. destruct (x_positive_values rs Hpos) as [Hnum Hgt].
  unfold Series_min. rewrite (numbers_of_numeric _ _ Hnum). cbn [bind].
  destruct rs as [|r rs]; [contradiction|]. cbn [fom_values map] in *.
  set (v := number_of (row_get "X FOM" r)) in *.
  set (vs := map (fun r0 => number_of (row_get "X FOM" r0)) rs) in *.
  destruct (fold_left_Rmin vs v) as [Hin [Hle Hall]].
  exists (fold_left Rmin vs v).
  assert (Hmem : In (fold_left Rmin vs v) (v :: vs)).
  { destruct Hin as [E | Hin]; [left; now rewrite E | now right]. }
  split; [reflexivity | split; [exact Hmem | split]].
  - constructor; assumption.
  - rewrite Forall_forall in Hgt. now apply Hgt.
Qed.

Lemma Series_max_greatest (rs : list Row) :
  rs <> [] ->
  Forall x_positive rs ->
  exists hi,
    Series_max (map (row_get "X FOM") rs) = Return (Num hi)
    /\ In hi (fom_values "X FOM" rs)
    /\ Forall (fun x => (x <= hi)%R) (fom_values "X FOM" rs)
    /\ (0 < hi)%R.
Proof.
  intros Hne Hpos. destruct (x_positive_values rs Hpos) as [Hnum Hgt].
  unfold Series_max. rewrite (numbers_of_numeric _ _ Hnum). cbn [bind].
  destruct rs as [|r rs]; [contradiction|]. cbn [fom_values map] in *.
  set (v := number_of (row_get "X FOM" r)) in *.
  set (vs := map (fun r0 => number_of (row_get "X FOM" r0)) rs) in *.
  destruct (fold_left_Rmax vs v) as [Hin [Hle Hall]].
  exists (fold_left Rmax vs v).
  assert (Hmem : In (fold_left Rmax vs v) (v :: vs)).
  { destruct Hin as [E | Hin]; [left; now rewrite E | now right]. }
  split; [reflexivity | split; [exact Hmem | split]].
  - constructor; assumption.
  - rewrite Forall_forall in Hgt. now apply Hgt.
Qed.





(** ** The matcher against the declarative reading *)

Lemma rmatch_star (r : regex) (s : string) (g : groups)
  (k : string -> groups -> option groups) :
  rmatch (Star r) s g k = star_loop (rmatch r) k (String.length s) s g.
Proof. reflexivity. Qed.

Lemma star_loop_step
  (step : string -> groups -> (string -> groups -> option groups) -> option groups)
  (k : string -> groups -> option groups) (fuel : nat) (s : string) (g : groups) :
  star_loop step k (S fuel) s g
  = match
      step s g
        (fun s' g' =>
           if (String.length s' <? String.length s)%nat
           then star_loop step k fuel s' g'
           else None)
    with
    | Some m => Some m
    | None => k s g
    end.
Proof. reflexivity. Qed.

Lemma rmatch_sound (r : regex) :
  forall s g k m,
    rmatch r s g k = Some m ->
    exists s' g', Matches r s g s' g' /\ k s' g' = Some m.
Proof.
  induction r as [c | p | r1 IH1 r2 IH2 | r1 IH | r1 IH | n r1 IH];
    intros s g k m H.
  - cbn [rmatch] in H. destruct s as [|d s']; [discriminate|].
    destruct (Ascii.eqb c d) eqn:E; [|discriminate].
    apply Ascii.eqb_eq in E. subst d. exists s', g. split; [constructor | exact H].
  - cbn [rmatch] in H. destruct s as [|d s']; [discriminate|].
    destruct (p d) eqn:E; [|discriminate].
    exists s', g. split; [now constructor | exact H].
  - cbn [rmatch] in H. apply IH1 in H. destruct H as [s1 [g1 [M1 H]]].
    apply IH2 in H. destruct H as [s2 [g2 [M2 H]]].
    exists s2, g2. split; [econstructor; eassumption | exact H].
  - rewrite rmatch_star in H. revert H.
    generalize (String.length s) as fuel. intros fuel. revert s g.
    induction fuel as [|fuel IHf]; intros s g H.
    + exists s, g. split; [apply MStarStop | exact H].
    + rewrite star_loop_step in H.
      match type of H with
      | match ?e with _ => _ end = _ => destruct e as [m0|] eqn:E
      end.
      * injection H as ->. apply IH in E. destruct E as [s1 [g1 [M1 E]]].
        cbv beta in E.
        destruct (String.length s1 <? String.length s)%nat; [|discriminate].
        apply IHf in E. destruct E as [s2 [g2 [M2 E]]].
        exists s2, g2. split; [eapply MStarStep; eassumption | exact E].
      * exists s, g. split; [apply MStarStop | exact H].
  - cbn [rmatch] in H. destruct (rmatch r1 s g k) as [m0|] eqn:E.
    + injection H as ->. apply IH in E. destruct E as [s' [g' [M E]]].
      exists s', g'. split; [now apply MOptSome | exact E].
    + exists s, g. split; [apply MOptNone | exact H].
  - cbn [rmatch] in H. apply IH in H. destruct H as [s' [g' [M H]]].
    eexists _, _. split; [constructor; eassumption | exact H].
Qed.

Lemma string_length_append (a b : string) :
  String.length (a ++ b)%string = (String.length a + String.length b)%nat.
Proof. induction a as [|c a IH]; simpl; [reflexivity | now rewrite IH]. Qed.

Lemma string_append_assoc (a b c : string) :
  ((a ++ b) ++ c = a ++ (b ++ c))%string.
Proof. induction a as [|d a IH]; simpl; [reflexivity | now rewrite IH]. Qed.

Lemma substring_append_prefix (t s : string) :
  substring 0 (String.length t) (t ++ s)%string = t.
Proof.
  induction t as [|c t IH]; simpl.
  - destruct s; reflexivity.
  - now rewrite IH.
Qed.

Lemma all_chars_append (p : ascii -> bool) (a b : string) :
  all_chars p (a ++ b)%string = all_chars p a && all_chars p b.
Proof.
  induction a as [|c a IH]; simpl; [reflexivity|].
  rewrite IH. now rewrite andb_assoc.
Qed.

(** A match consumes a prefix of its input. *)
Lemma Matches_consumes (r : regex) (s : string) (g : groups) (s' : string)
  (g' : groups) :
  Matches r s g s' g' -> exists t, s = (t ++ s')%string.
Proof.
  induction 1 as [c s g | p d s g Hp | r1 r2 s g s1 g1 s2 g2 _ [t1 E1] _ [t2 E2]
                 | r s g s' g' _ [t E] | r s g | r s g
                 | r s g s1 g1 s2 g2 _ [t1 E1] _ [t2 E2]
                 | n r s g s' g' _ [t E]].
  - now exists (String c EmptyString).
  - now exists (String d EmptyString).
  - exists (t1 ++ t2)%string. subst. now rewrite string_append_assoc.
  - now exists t.
  - now exists EmptyString.
  - now exists EmptyString.
  - exists (t1 ++ t2)%string. subst. now rewrite string_append_assoc.
  - now exists t.
Qed.

Lemma Matches_groupless (r : regex) (s : string) (g : groups) (s' : string)
  (g' : groups) :
  Matches r s g s' g' -> groupless r = true -> g' = g.
Proof.
  induction 1 as [| | r1 r2 s g s1 g1 s2 g2 _ IH1 _ IH2 | r s g s' g' _ IH | |
                 | r s g s1 g1 s2 g2 _ IH1 _ IH2 | ]; cbn [groupless]; intros Hg;
    try reflexivity.
  - apply andb_prop in Hg. destruct Hg as [Hg1 Hg2].
    rewrite (IH2 Hg2). exact (IH1 Hg1).
  - exact (IH Hg).
  - rewrite (IH2 Hg). exact (IH1 Hg).
  - discriminate.
Qed.

(** A repetition of a character class consumes characters of the class. *)
Lemma Matches_star_cls (p : ascii -> bool) (s : string) (g : groups)
  (s' : string) (g' : groups) :
  Matches (Star (Cls p)) s g s' g' ->
  exists t, s = (t ++ s')%string /\ all_chars p t = true.
Proof.
  intros H. remember (Star (Cls p)) as r eqn:Er.
  induction H as [| | | | | r s g | r s g s1 g1 s2 g2 H1 _ _ IH2 | ];
    try discriminate.
  - now exists EmptyString.
  - injection Er as ->. destruct (IH2 eq_refl) as [t [E Ht]].
    inversion H1 as [|q d s0 g0 Hd| | | | | | ]; subst.
    exists (String d t). split; [reflexivity | simpl; now rewrite Hd, Ht].
Qed.

Lemma Matches_plus_cls (p : ascii -> bool) (s : string) (g : groups)
  (s' : string) (g' : groups) :
  Matches (Plus (Cls p)) s g s' g' ->
  exists c t, s = (String c t ++ s')%string /\ all_chars p (String c t) = true.
Proof.
  intros H. unfold Plus in H.
  inversion H as [| |r1 r2 s0 g0 s1 g1 s2 g2 M1 M2| | | | | ]; subst.
  inversion M1 as [|q d s0 g0 Hd| | | | | | ]; subst.
  destruct (Matches_star_cls _ _ _ _ _ M2) as [t [E Ht]].
  exists d, t. split; [simpl; now rewrite E | simpl; now rewrite Hd, Ht].
Qed.

Lemma group_text (t s' : string) :
  substring 0 (String.length (t ++ s')%string - String.length s') (t ++ s')%string
  = t.
Proof.
  rewrite string_length_append, Nat.add_sub. apply substring_append_prefix.
Qed.

(** A match of the override pattern sets both groups: the first to a
    non-empty text of digits and points, the second to a text of digits,
    points and minus signs. *)
Lemma override_pattern_groups (t s' : string) (m : groups) :
  Matches override_pattern t [] s' m ->
  exists c g1 g2,
    m = [(2, g2); (1, String c g1)]%nat
    /\ all_chars digit_or_dot (String c g1) = true
    /\ all_chars digit_dot_or_minus g2 = true.
Proof.
  unfold override_pattern. intros H.
  repeat match goal with
         | H : Matches (Cat _ _) _ _ _ _ |- _ => inversion H; subst; clear H
         end.
  repeat match goal with
         | H : Matches (Grp _ _) _ _ _ _ |- _ => inversion H; subst; clear H
         end.
  repeat match goal with
         | H : Matches ws _ _ _ _ |- _ =>
             apply Matches_groupless in H; [subst | reflexivity]
         | H : Matches (Chr _) _ _ _ _ |- _ =>
             apply Matches_groupless in H; [subst | reflexivity]
         | H : Matches (Opt _) _ _ _ _ |- _ =>
             apply Matches_groupless in H; [subst | reflexivity]
         end.
  match goal with
  | H : Matches (Plus _) _ _ _ _ |- _ =>
      pose proof (Matches_groupless _ _ _ _ _ H eq_refl); subst;
      destruct (Matches_plus_cls _ _ _ _ _ H) as [c [g1 [E1 H1]]]
  end.
  match goal with
  | H : Matches (Star _) _ _ _ _ |- _ =>
      pose proof (Matches_groupless _ _ _ _ _ H eq_refl); subst;
      destruct (Matches_star_cls _ _ _ _ _ H) as [g2 [E2 H2]]
  end.
  exists c, g1, g2. subst. rewrite !group_text. repeat split; assumption.
Qed.

Lemma re_search_sound (r : regex) (s : string) (m : groups) :
  re_search r s = Some m ->
  exists pre t s', s = (pre ++ t)%string /\ Matches r t [] s' m.
Proof.
  induction s as [|c s IH]; cbn [re_search].
  - destruct (rmatch r "" [] _) as [m0|] eqn:E; [|discriminate].
    intros H. injection H as ->. apply rmatch_sound in E.
    destruct E as [s' [g' [M E]]]. injection E as ->.
    now exists EmptyString, EmptyString, s'.
  - destruct (rmatch r (String c s) [] _) as [m0|] eqn:E.
    + intros H. injection H as ->. apply rmatch_sound in E.
      destruct E as [s' [g' [M E]]]. injection E as ->.
      now exists EmptyString, (String c s), s'.
    + intros H. destruct (IH H) as [pre [t [s' [Es M]]]].
      exists (String c pre), t, s'. split; [simpl; now rewrite Es | exact M].
Qed.

(** ** What the override pattern accepts *)

Lemma stops_append (p q : ascii -> bool) (w rest : string) :
  (forall c, q c = true -> p c = false) ->
  all_chars q w = true ->
  stops p rest = true ->
  stops p (w ++ rest)%string = true.
Proof.
  intros Hpq Hw Hrest. destruct w as [|c w]; [exact Hrest|].
  simpl in *. apply andb_prop in Hw. destruct Hw as [Hc _].
  now rewrite (Hpq c Hc).
Qed.

Lemma rmatch_cls_stops (p : ascii -> bool) (s : string) (g : groups)
  (k : string -> groups -> option groups) :
  stops p s = true -> rmatch (Cls p) s g k = None.
Proof.
  destruct s as [|c s]; simpl; [reflexivity|].
  destruct (p c); [discriminate | reflexivity].
Qed.

(** A greedy repetition of a class takes all of [t] when the continuation
    accepts what follows. *)
Lemma rmatch_star_cls_greedy (p : ascii -> bool) (t rest : string)
  (g : groups) (k : string -> groups -> option groups) (m : groups) :
  all_chars p t = true ->
  stops p rest = true ->
  k rest g = Some m ->
  rmatch (Star (Cls p)) (t ++ rest)%string g k = Some m.
Proof.
  intros Ht Hrest Hk. rewrite rmatch_star.
  assert (Hfuel : forall fuel,
             (String.length (t ++ rest)%string <= fuel)%nat ->
             star_loop (rmatch (Cls p)) k fuel (t ++ rest)%string g = Some m).
  { induction t as [|c t IH]; intros fuel Hlen.
    - cbn [append]. destruct fuel as [|fuel]; [exact Hk|].
      rewrite star_loop_step, (rmatch_cls_stops _ _ _ _ Hrest). exact Hk.
    - simpl in Ht. apply andb_prop in Ht. destruct Ht as [Hc Ht].
      destruct fuel as [|fuel]; [simpl in Hlen; lia|].
      rewrite star_loop_step. cbn [append rmatch]. rewrite Hc.
      cbn [String.length].
      replace (String.length (t ++ rest)%string <? S (String.length (t ++ rest)%string))%nat
        with true by (symmetry; apply Nat.ltb_lt; lia).
      rewrite (IH Ht); [reflexivity | simpl in Hlen; lia]. }
  apply Hfuel. apply Nat.le_refl.
Qed.

Lemma space_not_digit_or_dot (c : ascii) :
  is_space c = true -> digit_or_dot c = false.
Proof.
  destruct c as [[] [] [] [] [] [] [] []]; vm_compute; congruence.
Qed.

Lemma space_not_digit_dot_or_minus (c : ascii) :
  is_space c = true -> digit_dot_or_minus c = false.
Proof.
  destruct c as [[] [] [] [] [] [] [] []]; vm_compute; congruence.
Qed.

Lemma digit_or_dot_not_space (c : ascii) :
  digit_or_dot c = true -> is_space c = false.
Proof.
  destruct c as [[] [] [] [] [] [] [] []]; vm_compute; congruence.
Qed.

Lemma digit_dot_or_minus_not_space (c : ascii) :
  digit_dot_or_minus c = true -> is_space c = false.
Proof.
  destruct c as [[] [] [] [] [] [] [] []]; vm_compute; congruence.
Qed.

Lemma digit_dot_or_minus_not_plus (c : ascii) :
  digit_dot_or_minus c = true -> Ascii.eqb "+" c = false.
Proof.
  destruct c as [[] [] [] [] [] [] [] []]; vm_compute; congruence.
Qed.

Lemma step_chr (c : ascii) (rest : string) (r : regex) (g : groups)
  (k : string -> groups -> option groups) (m : groups) :
  rmatch r rest g k = Some m ->
  rmatch (Cat (Chr c) r) (String c rest) g k = Some m.
Proof. intros H. cbn [rmatch]. now rewrite Ascii.eqb_refl. Qed.

Lemma step_ws (w rest : string) (r : regex) (g : groups)
  (k : string -> groups -> option groups) (m : groups) :
  all_chars is_space w = true ->
  stops is_space rest = true ->
  rmatch r rest g k = Some m ->
  rmatch (Cat ws r) (w ++ rest)%string g k = Some m.
Proof.
  intros Hw Hrest H.
  change (rmatch (Cat ws r) (w ++ rest)%string g k)
    with (rmatch (Star (Cls is_space)) (w ++ rest)%string g
            (fun s' g' => rmatch r s' g' k)).
  now apply rmatch_star_cls_greedy.
Qed.

Lemma step_group_plus (n : nat) (p : ascii -> bool) (c : ascii)
  (d rest : string) (r : regex) (g : groups)
  (k : string -> groups -> option groups) (m : groups) :
  all_chars p (String c d) = true ->
  stops p rest = true ->
  rmatch r rest ((n, String c d) :: g) k = Some m ->
  rmatch (Cat (Grp n (Plus (Cls p))) r) (String c d ++ rest)%string g k = Some m.
Proof.
  intros Hd Hrest H. simpl in Hd. apply andb_prop in Hd. destruct Hd as [Hc Hd].
  change (rmatch (Cat (Grp n (Plus (Cls p))) r) (String c d ++ rest)%string g k)
    with (if p c
          then rmatch (Star (Cls p)) (d ++ rest)%string g
                 (fun s1 g1 =>
                    rmatch r s1
                      ((n, substring 0
                             (String.length (String c d ++ rest)%string
                              - String.length s1)
                             (String c d ++ rest)%string) :: g1) k)
          else None).
  rewrite Hc. apply rmatch_star_cls_greedy; [exact Hd | exact Hrest|].
  now rewrite group_text.
Qed.

Lemma step_group_star (n : nat) (p : ascii -> bool) (d rest : string)
  (g : groups) (k : string -> groups -> option groups) (m : groups) :
  all_chars p d = true ->
  stops p rest = true ->
  k rest ((n, d) :: g) = Some m ->
  rmatch (Grp n (Star (Cls p))) (d ++ rest)%string g k = Some m.
Proof.
  intros Hd Hrest H.
  change (rmatch (Grp n (Star (Cls p))) (d ++ rest)%string g k)
    with (rmatch (Star (Cls p)) (d ++ rest)%string g
            (fun s1 g1 =>
               k s1 ((n, substring 0
                           (String.length (d ++ rest)%string - String.length s1)
                           (d ++ rest)%string) :: g1))).
  apply rmatch_star_cls_greedy; [exact Hd | exact Hrest|].
  now rewrite group_text.
Qed.

Lemma step_opt_some (c : ascii) (rest : string) (r : regex) (g : groups)
  (k : string -> groups -> option groups) (m : groups) :
  rmatch r rest g k = Some m ->
  rmatch (Cat (Opt (Chr c)) r) (String c rest) g k = Some m.
Proof. intros H. cbn [rmatch]. rewrite Ascii.eqb_refl. now rewrite H. Qed.

Lemma step_opt_none (c : ascii) (s : string) (r : regex) (g : groups)
  (k : string -> groups -> option groups) :
  stops (Ascii.eqb c) s = true ->
  rmatch (Cat (Opt (Chr c)) r) s g k = rmatch r s g k.
Proof.
  intros H. cbn [rmatch]. destruct s as [|d s]; [reflexivity|].
  simpl in H. destruct (Ascii.eqb c d); [discriminate | reflexivity].
Qed.

Lemma stops_intercept (p : ascii -> bool) (d2 tl : string) :
  (forall c, digit_dot_or_minus c = true -> p c = false) ->
  all_chars digit_dot_or_minus d2 = true ->
  (d2 = EmptyString -> stops p tl = true) ->
  stops p (d2 ++ tl)%string = true.
Proof.
  intros Hp Hd Htl. destruct d2 as [|c d2]; [now apply Htl|].
  simpl in *. apply andb_prop in Hd. destruct Hd as [Hc _].
  now rewrite (Hp c Hc).
Qed.

(** The search on a formula text finds the slope and the intercept as the two
    groups. *)
Lemma re_search_formula_text (w1 w2 d1 w3 w4 w5 : string)
  (sign : option string) (d2 tl : string) :
  all_chars is_space w1 = true ->
  all_chars is_space w2 = true ->
  all_chars is_space w3 = true ->
  all_chars is_space w4 = true ->
  all_chars is_space w5 = true ->
  all_chars is_space (match sign with Some w6 => w6 | None => EmptyString end)
  = true ->
  d1 <> EmptyString ->
  all_chars digit_or_dot d1 = true ->
  all_chars digit_dot_or_minus d2 = true ->
  tail_ok d2 tl = true ->
  re_search override_pattern (formula_text w1 w2 d1 w3 w4 w5 sign d2 tl)
  = Some [(2, d2); (1, d1)]%nat.
Proof.
  intros H1 H2 H3 H4 H5 H6 Hne Hd1 Hd2 Htl.
  destruct d1 as [|c1 d1]; [contradiction|].
  apply andb_prop in Htl. destruct Htl as [Htl Hempty].
  assert (Hsp : stops is_space (d2 ++ tl)%string = true).
  { apply stops_intercept; [exact digit_dot_or_minus_not_space | exact Hd2|].
    intros ->. now apply andb_prop in Hempty. }
  assert (Hpl : stops (Ascii.eqb "+") (d2 ++ tl)%string = true).
  { apply stops_intercept; [exact digit_dot_or_minus_not_plus | exact Hd2|].
    intros ->. now apply andb_prop in Hempty. }
  assert (Hmatch :
            rmatch override_pattern
              (formula_text w1 w2 (String c1 d1) w3 w4 w5 sign d2 tl) []
              (fun _ g => Some g)
            = Some [(2, d2); (1, String c1 d1)]%nat).
  { unfold override_pattern, formula_text. cbn [append].
    apply step_chr. apply step_ws; [exact H1 | reflexivity|].
    apply step_chr. apply step_ws; [exact H2 | |].
    { simpl in Hd1. apply andb_prop in Hd1. destruct Hd1 as [Hc _].
      simpl. now rewrite (digit_or_dot_not_space _ Hc). }
    change (String c1 (d1 ++ w3 ++ String "*" (w4 ++ String "x"
              (w5 ++ sign_text sign ++ d2 ++ tl))))%string
      with (String c1 d1 ++ (w3 ++ String "*" (w4 ++ String "x"
              (w5 ++ sign_text sign ++ d2 ++ tl))))%string.
    apply step_group_plus; [exact Hd1 | |].
    { apply (stops_append _ is_space); [exact space_not_digit_or_dot | exact H3|].
      reflexivity. }
    apply step_ws; [exact H3 | reflexivity|].
    apply step_chr. apply step_ws; [exact H4 | reflexivity|].
    apply step_chr.
    destruct sign as [w6|]; cbn [sign_text append].
    - apply step_ws; [exact H5 | reflexivity|].
      apply step_opt_some. apply step_ws; [exact H6 | exact Hsp|].
      now apply step_group_star.
    - apply step_ws; [exact H5 | exact Hsp|].
      rewrite (step_opt_none _ _ _ _ _ Hpl).
      apply (step_ws EmptyString); [reflexivity | exact Hsp|].
      now apply step_group_star. }
  destruct (formula_text w1 w2 (String c1 d1) w3 w4 w5 sign d2 tl);
    cbn [re_search]; now rewrite Hmatch.
Qed.

(** On a formula text the parser's result is fixed by what [float] makes of
    the slope and of the intercept. *)
Lemma parse_formula_of_text (w1 w2 d1 w3 w4 w5 : string)
  (sign : option string) (d2 tl : string) :
  all_chars is_space w1 = true ->
  all_chars is_space w2 = true ->
  all_chars is_space w3 = true ->
  all_chars is_space w4 = true ->
  all_chars is_space w5 = true ->
  all_chars is_space (match sign with Some w6 => w6 | None => EmptyString end)
  = true ->
  d1 <> EmptyString ->
  all_chars digit_or_dot d1 = true ->
  all_chars digit_dot_or_minus d2 = true ->
  tail_ok d2 tl = true ->
  parse_formula (Str (formula_text w1 w2 d1 w3 w4 w5 sign d2 tl))
  = (slope <- float d1 ;;
     intercept <- (match d2 with
                   | String _ _ => float d2
                   | EmptyString => Return 0%R
                   end) ;;
     Return (Some (fun x => Return (affine slope intercept x)))).
Proof.
  intros H1 H2 H3 H4 H5 H6 Hne Hd1 Hd2 Htl.
  apply (parse_formula_match _ d1 d2 [(2, d2); (1, d1)]%nat);
    [|reflexivity|reflexivity].
  now apply re_search_formula_text.
Qed.

Lemma scan_digits_nonneg (s : string) :
  forall acc n v k rest,
    scan_digits acc n s = (v, k, rest) -> (0 <= acc)%Z -> (0 <= v)%Z.
Proof.
  induction s as [|c s IH]; intros acc n v k rest H Hacc; cbn [scan_digits] in H.
  - injection H as <- _ _. exact Hacc.
  - destruct (is_digit c).
    + apply IH in H; [exact H|].
      unfold digit_value. lia.
    + injection H as <- _ _. exact Hacc.
Qed.

Lemma scan_sign_unsigned (c : ascii) (s : string) :
  digit_or_dot c = true -> scan_sign (String c s) = (1%Z, String c s).
Proof.
  destruct c as [[] [] [] [] [] [] [] []]; vm_compute; congruence.
Qed.

(** A text of digits and points that spells a number spells one that is not
    negative. *)
Lemma float_unsigned_nonneg (s : string) (v : R) :
  all_chars digit_or_dot s = true ->
  float s = Return v ->
  (0 <= v)%R.
Proof.
  intros Hs. unfold float, parse_decimal.
  destruct s as [|c s].
  { vm_compute. discriminate. }
  simpl in Hs. apply andb_prop in Hs. destruct Hs as [Hc _].
  rewrite (scan_sign_unsigned _ _ Hc).
  destruct (scan_digits 0 0 (String c s)) as [[v1 n1] s2] eqn:E1.
  pose proof (scan_digits_nonneg _ _ _ _ _ _ E1 (Z.le_refl 0)) as Hv1.
  assert (Hv2 : forall v2 n2 s3,
             match s2 with
             | String "." s2' => scan_digits v1 0 s2'
             | _ => (v1, 0%nat, s2)
             end = (v2, n2, s3) -> (0 <= v2)%Z).
  { intros v2 n2 s3 E2.
    destruct s2 as [|d s2']; [injection E2 as <- _ _; exact Hv1|].
    destruct (Ascii.eqb d ".") eqn:Ed.
    - apply Ascii.eqb_eq in Ed. subst d.
      exact (scan_digits_nonneg _ _ _ _ _ _ E2 Hv1).
    - assert (E2' : (v1, 0%nat, String d s2') = (v2, n2, s3)).
      { rewrite <- E2. destruct d as [[] [] [] [] [] [] [] []];
          try reflexivity; discriminate. }
      injection E2' as <- _ _. exact Hv1. }
  destruct (match s2 with
            | String "." s2' => scan_digits v1 0 s2'
            | _ => (v1, 0%nat, s2)
            end) as [[v2 n2] s3] eqn:E2.
  specialize (Hv2 _ _ _ eq_refl).
  destruct s3; [|discriminate].
  destruct (1 <=? n1 + n2)%nat; [|discriminate].
  intros H. injection H as <-.
  apply Rmult_le_pos.
  - apply IZR_le. destruct v2; lia.
  - left. apply Rinv_0_lt_compat. apply IZR_lt. apply Z.pow_pos_nonneg; lia.
Qed.

Lemma float_returns_or_value_error (s : string) :
  (exists v, float s = Return v) \/ float s = Raise ValueError.
Proof.
  unfold float. destruct (parse_decimal s) as [[m n]|]; [left | right].
  - now eexists.
  - reflexivity.
Qed.

Lemma parse_formula_outcomes (v : cell) :
  parse_formula v = Raise TypeError
  \/ parse_formula v = Raise ValueError
  \/ parse_formula v = Return None
  \/ exists slope intercept,
       (0 <= slope)%R
       /\ parse_formula v
          = Return (Some (fun x => Return (affine slope intercept x))).
Proof.
  destruct v as [|r|s]; try (left; reflexivity).
  destruct (re_search override_pattern s) as [m|] eqn:Hs.
  2:{ right. right. left. now apply parse_formula_no_match. }
  destruct (re_search_sound _ _ _ Hs) as [pre [t [s' [_ HM]]]].
  destruct (override_pattern_groups _ _ _ HM) as [c [g1 [g2 [-> [H1 H2]]]]].
  rewrite (parse_formula_match s (String c g1) g2 _ Hs eq_refl eq_refl).
  destruct (float_returns_or_value_error (String c g1)) as [[a Ha] | Ha];
    rewrite Ha; cbn [bind]; [|right; left; reflexivity].
  pose proof (float_unsigned_nonneg _ _ H1 Ha) as Hpos.
  destruct g2 as [|c2 g2]; cbn [bind].
  - right. right. right. now exists a, 0%R.
  - destruct (float_returns_or_value_error (String c2 g2)) as [[b Hb] | Hb];
      rewrite Hb; cbn [bind]; [|right; left; reflexivity].
    right. right. right. now exists a, b.
Qed.

(** X1.  [parse_sota_override] ends in one of five ways: [KeyError] when the
    sheet has no [SOTA Override] column, [TypeError], [ValueError], [None], or
    a function [x -> slope * x + intercept] whose slope is not negative.  No
    override text gives a negative slope. *)
Theorem parse_sota_override_outcomes (df : DataFrame) :
  (has_column df "SOTA Override" = false
   /\ parse_sota_override df = Raise KeyError)
  \/ parse_sota_override df = Raise TypeError
  \/ parse_sota_override df = Raise ValueError
  \/ parse_sota_override df = Return None
  \/ exists slope intercept,
       (0 <= slope)%R
       /\ parse_sota_override df
          = Return (Some (fun x => Return (affine slope intercept x))).
Proof.
  destruct (has_column df "SOTA Override") eqn:Hcol.
  2:{ left. split; [reflexivity | now apply parse_sota_override_no_column]. }
  right. pose proof (getitem_column _ _ Hcol) as Hget.
  destruct (Series_dropna (map (row_get "SOTA Override") (rows df)))
    as [|v rest] eqn:Hfirst.
  - right. right. left. exact (parse_sota_override_blank _ _ Hget Hfirst).
  - rewrite (parse_sota_override_first _ _ _ _ Hget Hfirst).
    apply parse_formula_outcomes.
Qed.

(** X2.  Blanks are tolerated: when the first non-empty override cell reads
    [y = d1 * x], optionally followed by a plus sign and by an intercept [d2],
    with any blanks around the tokens, and [float] reads [d1] as [a] and [d2]
    as [b] (an absent intercept counts as 0), the parser returns a function
    that maps every sample [xi] to [a * xi + b]. *)
Theorem parse_sota_override_blank_tolerant
  (df : DataFrame) (col rest : Series)
  (w1 w2 d1 w3 w4 w5 : string) (sign : option string) (d2 tl : string)
  (a b : R) :
  getitem df "SOTA Override" = Return col ->
  Series_dropna col = Str (formula_text w1 w2 d1 w3 w4 w5 sign d2 tl) :: rest ->
  all_chars is_space w1 = true ->
  all_chars is_space w2 = true ->
  all_chars is_space w3 = true ->
  all_chars is_space w4 = true ->
  all_chars is_space w5 = true ->
  all_chars is_space (match sign with Some w6 => w6 | None => EmptyString end)
  = true ->
  d1 <> EmptyString ->
  all_chars digit_or_dot d1 = true ->
  all_chars digit_dot_or_minus d2 = true ->
  tail_ok d2 tl = true ->
  float d1 = Return a ->
  (d2 = EmptyString /\ b = 0%R) \/ (d2 <> EmptyString /\ float d2 = Return b) ->
  exists f,
    parse_sota_override df = Return (Some f)
    /\ forall x, f x = Return (map (fun xi => (a * xi + b)%R) x).
Proof.
  intros Hget Hfirst H1 H2 H3 H4 H5 H6 Hne Hd1 Hd2 Htl Ha Hb.
  rewrite (parse_sota_override_first _ _ _ _ Hget Hfirst).
  rewrite parse_formula_of_text by assumption.
  rewrite Ha. cbn [bind].
  destruct Hb as [[-> ->] | [Hd Hb]].
  - cbn [bind]. now eexists.
  - destruct d2 as [|c2 d2]; [contradiction|].
    rewrite Hb. cbn [bind]. now eexists.
Qed.

Lemma parse_sota_override_blank_tolerant_witness :
  exists f,
    parse_sota_override (override_frame "y = 1.5 * x + 2") = Return (Some f)
    /\ forall x, f x = Return (map (fun xi => (15 / 10 * xi + 2 / 1)%R) x).
Proof.
  apply (parse_sota_override_blank_tolerant
           (override_frame "y = 1.5 * x + 2")
           [NaN; Str "y = 1.5 * x + 2"; NaN] []
           " " " " "1.5" " " " " " " (Some " ") "2" "");
    try reflexivity.
  - discriminate.
  - right. split; [discriminate | reflexivity].
Defined.

(** X3.  When the first non-empty override cell has the shape of a formula
    but [float] refuses the slope text, or the intercept text is not empty and
    [float] refuses it, the parser raises [ValueError]: it neither returns a
    function nor falls through.  A minus sign separated from its digits by a
    blank is such a text. *)
Theorem parse_sota_override_value_error
  (df : DataFrame) (col rest : Series)
  (w1 w2 d1 w3 w4 w5 : string) (sign : option string) (d2 tl : string) :
  getitem df "SOTA Override" = Return col ->
  Series_dropna col = Str (formula_text w1 w2 d1 w3 w4 w5 sign d2 tl) :: rest ->
  all_chars is_space w1 = true ->
  all_chars is_space w2 = true ->
  all_chars is_space w3 = true ->
  all_chars is_space w4 = true ->
  all_chars is_space w5 = true ->
  all_chars is_space (match sign with Some w6 => w6 | None => EmptyString end)
  = true ->
  d1 <> EmptyString ->
  all_chars digit_or_dot d1 = true ->
  all_chars digit_dot_or_minus d2 = true ->
  tail_ok d2 tl = true ->
  float d1 = Raise ValueError
  \/ (d2 <> EmptyString /\ float d2 = Raise ValueError) ->
  parse_sota_override df = Raise ValueError
  /\ forall curve_fit, resolve_sota curve_fit df = Raise ValueError.
Proof.
  intros Hget Hfirst H1 H2 H3 H4 H5 H6 Hne Hd1 Hd2 Htl Hbad.
  assert (Hparse : parse_sota_override df = Raise ValueError).
  { rewrite (parse_sota_override_first _ _ _ _ Hget Hfirst).
    rewrite parse_formula_of_text by assumption.
    destruct Hbad as [Ha | [Hd Hb]].
    - now rewrite Ha.
    - destruct d2 as [|c2 d2]; [contradiction|]. rewrite Hb.
      destruct (float_returns_or_value_error d1) as [[a Ha] | Ha];
        now rewrite Ha. }
  split; [exact Hparse|].
  intros curve_fit. unfold resolve_sota. now rewrite Hparse.
Qed.

Lemma parse_sota_override_value_error_witness :
  parse_sota_override (override_frame "y = 20 * x - 3.5") = Raise ValueError
  /\ forall curve_fit,
       resolve_sota curve_fit (override_frame "y = 20 * x - 3.5")
       = Raise ValueError.
Proof.
  apply (parse_sota_override_value_error
           (override_frame "y = 20 * x - 3.5")
           [NaN; Str "y = 20 * x - 3.5"; NaN] []
           " " " " "20" " " " " " " None "-" " 3.5");
    try reflexivity.
  - discriminate.
  - right. split; [discriminate | reflexivity].
Defined.

(** ** What [plot_fom] draws *)

Lemma annotate_labels (df : DataFrame) (rs : list Row) :
  has_column df "X FOM" = true ->
  has_column df "Y FOM" = true ->
  has_column df "Label" = true ->
  annotate df rs = Return (map label_call rs).
Proof.
  intros Hx Hy Hl. induction rs as [|r rs IH]; cbn [annotate map].
  - reflexivity.
  - unfold row_item. rewrite Hx, Hy, Hl. cbn [bind]. rewrite IH. reflexivity.
Qed.

(** [plot_fom] up to the call of the reference function. *)
Lemma plot_fom_calls (float_log10 float_pow10 : R -> R) (df : DataFrame) :
  has_column df "ID" = true ->
  has_column df "Label" = true ->
  has_column df "X FOM" = true ->
  has_column df "Y FOM" = true ->
  Forall id_is_text (rows df) ->
  rows df <> [] ->
  Forall x_positive (rows df) ->
  exists lo hi,
    least_x df lo /\ greatest_x df hi /\ (0 < lo)%R /\ (0 < hi)%R
    /\ forall sota_fn : ReferenceFunction,
         plot_fom float_log10 float_pow10 df sota_fn
         = (y_vals <- sota_fn (np_logspace float_pow10 (float_log10 lo)
                                 (float_log10 hi) 100) ;;
            Return (plot_calls df
                      (np_logspace float_pow10 (float_log10 lo)
                         (float_log10 hi) 100) y_vals)).
Proof.
  intros Hid Hlabel Hx Hy Htext Hne Hpos.
  destruct (Series_min_least _ Hne Hpos) as [lo [Hmin [Hlo_in [Hlo_le Hlo_pos]]]].
  destruct (Series_max_greatest _ Hne Hpos) as [hi [Hmax [Hhi_in [Hhi_le Hhi_pos]]]].
  exists lo, hi. repeat split; try assumption.
  intros sota_fn.
  unfold plot_fom, get_chart_metadata. rewrite !metadata_field_spec.
  cbn [bind]. rewrite (getitem_column _ _ Hid). cbn [bind].
  rewrite !(select_by_prefix _ _ Htext). cbn [bind].
  rewrite !(getitem_selected _ _ _ Hx), !(getitem_selected _ _ _ Hy).
  cbn [bind rows].
  rewrite (annotate_labels (mkDataFrame (columns df) _) _ Hx Hy Hlabel).
  rewrite (annotate_labels (mkDataFrame (columns df) _) _ Hx Hy Hlabel).
  cbn [bind]. rewrite (getitem_column _ _ Hx). cbn [bind].
  rewrite Hmin, Hmax. cbn [bind].
  rewrite (np_log10_positive float_log10 _ Hlo_pos),
    (np_log10_positive float_log10 _ Hhi_pos).
  cbn [bind]. reflexivity.
Qed.

Lemma filter_text_labels (rs : list Row) :
  filter is_text_call (map label_call rs) = map label_call rs.
Proof. induction rs as [|r rs IH]; simpl; [reflexivity | now rewrite IH]. Qed.

Lemma filter_scatter_labels (rs : list Row) :
  filter is_scatter_call (map label_call rs) = [].
Proof. induction rs as [|r rs IH]; simpl; [reflexivity | exact IH]. Qed.

(** X4.  On a dataset as in C9, [plot_fom] annotates every competitor row and
    every product row once, with the row's own [Label] at the row's own point,
    competitors first and each group in sheet order; it draws two scatter
    series, the competitors' points in red and the products' in blue.  A row
    whose [ID] starts with neither prefix gets no annotation and is in neither
    series. *)
Theorem plot_fom_annotations (float_log10 float_pow10 : R -> R)
  (df : DataFrame) (sota_fn : ReferenceFunction) :
  has_column df "ID" = true ->
  has_column df "Label" = true ->
  has_column df "X FOM" = true ->
  has_column df "Y FOM" = true ->
  Forall id_is_text (rows df) ->
  rows df <> [] ->
  Forall x_positive (rows df) ->
  (forall x, exists y, sota_fn x = Return y) ->
  exists calls,
    plot_fom float_log10 float_pow10 df sota_fn = Return calls
    /\ filter is_text_call calls
       = map label_call (competitors df ++ products df)
    /\ filter is_scatter_call calls
       = [plt_scatter (map (row_get "X FOM") (competitors df))
            (map (row_get "Y FOM") (competitors df)) "red" "Competitor";
          plt_scatter (map (row_get "X FOM") (products df))
            (map (row_get "Y FOM") (products df)) "blue" "Product"].
Proof.
  intros Hid Hlabel Hx Hy Htext Hne Hpos Htotal.
  destruct (plot_fom_calls float_log10 float_pow10 df
              Hid Hlabel Hx Hy Htext Hne Hpos)
    as [lo [hi [_ [_ [_ [_ Hplot]]]]]].
  destruct (Htotal (np_logspace float_pow10 (float_log10 lo)
                      (float_log10 hi) 100)) as [y_vals Hy_vals].
  eexists. split; [rewrite Hplot, Hy_vals; reflexivity|].
  unfold plot_calls. split.
  - rewrite !filter_app, !filter_text_labels, map_app.
    cbn [filter is_text_call app]. now rewrite app_nil_r.
  - rewrite !filter_app, !filter_scatter_labels.
    cbn [filter is_scatter_call app]. reflexivity.
Qed.

Lemma plot_fom_annotations_witness :
  exists calls,
    plot_fom log10 (Rpower 10) end_to_end_example
      (fun x => Return (affine 10 0 x)) = Return calls
    /\ filter is_text_call calls
       = [plt_text (Num 1) (Num 10) (Str "A");
          plt_text (Num 2) (Num 20) (Str "B");
          plt_text (Num 5) (Num 1) (Str "P")]
    /\ filter is_scatter_call calls
       = [plt_scatter [Num 1; Num 2] [Num 10; Num 20] "red" "Competitor";
          plt_scatter [Num 5] [Num 1] "blue" "Product"].
Proof.
  apply (plot_fom_annotations log10 (Rpower 10) end_to_end_example
           (fun x => Return (affine 10 0 x))).
  - reflexivity.
  - reflexivity.
  - reflexivity.
  - reflexivity.
  - repeat constructor; eexists; reflexivity.
  - discriminate.
  - repeat constructor; eexists; (split; [reflexivity | lra]).
  - intros x. now eexists.
Defined.



(** X6.  Without a [Label] column, [plot_fom] raises [KeyError] as soon as
    one row is a competitor or a product, whatever the reference function:
    the annotation of the first such row reads [row["Label"]]. *)
Theorem plot_fom_without_label (float_log10 float_pow10 : R -> R)
  (df : DataFrame) (sota_fn : ReferenceFunction) :
  has_column df "ID" = true ->
  has_column df "X FOM" = true ->
  has_column df "Y FOM" = true ->
  has_column df "Label" = false ->
  Forall id_is_text (rows df) ->
  competitors df ++ products df <> [] ->
  plot_fom float_log10 float_pow10 df sota_fn = Raise KeyError.
Proof.
  intros Hid Hx Hy Hlabel Htext Hsome.
  unfold plot_fom, get_chart_metadata. rewrite !metadata_field_spec.
  cbn [bind]. rewrite (getitem_column _ _ Hid). cbn [bind].
  rewrite !(select_by_prefix _ _ Htext). cbn [bind].
  rewrite !(getitem_selected _ _ _ Hx), !(getitem_selected _ _ _ Hy).
  cbn [bind rows]. fold (competitors df). fold (products df).
  destruct (competitors df) as [|c cs].
  - cbn [annotate bind]. destruct (products df) as [|p ps]; [now contradiction Hsome|].
    cbn [annotate]. unfold row_item, has_column in *. cbn [columns].
    now rewrite Hx, Hy, Hlabel.
  - cbn [annotate]. unfold row_item, has_column in *. cbn [columns].
    now rewrite Hx, Hy, Hlabel.
Qed.

Lemma plot_fom_without_label_witness :
  plot_fom log10 (Rpower 10) unlabeled_example
    (fun x => Return (affine 10 0 x)) = Raise KeyError.
Proof.
  apply (plot_fom_without_label log10 (Rpower 10) unlabeled_example
           (fun x => Return (affine 10 0 x))); try reflexivity.
  - repeat constructor; eexists; reflexivity.
  - discriminate.
Defined.

(** ** The automatic fit and the rows it reads *)

(** X7.  [compute_sota_auto] reads the competitor rows only: two frames with
    the same columns and the same competitor rows get the same outcome, and
    the same reference function, whatever their other rows are. *)
Theorem compute_sota_auto_competitors_only
  (curve_fit : (R -> R -> R -> R) -> ndarray -> ndarray -> outcome (R * R))
  (df1 df2 : DataFrame) :
  has_column df1 "ID" = true ->
  Forall id_is_text (rows df1) ->
  Forall id_is_text (rows df2) ->
  columns df1 = columns df2 ->
  competitors df1 = competitors df2 ->
  compute_sota_auto curve_fit df1 = compute_sota_auto curve_fit df2.
Proof.
  intros Hid Htext1 Htext2 Hcols Hcomp.
  assert (Hid2 : has_column df2 "ID" = true).
  { unfold has_column in *. now rewrite <- Hcols. }
  unfold compute_sota_auto.
  rewrite (getitem_column _ _ Hid), (getitem_column _ _ Hid2). cbn [bind].
  rewrite (select_by_prefix _ _ Htext1), (select_by_prefix _ _ Htext2).
  fold (competitors df1). fold (competitors df2).
  now rewrite Hcols, Hcomp.
Qed.

Lemma compute_sota_auto_competitors_only_witness :
  compute_sota_auto normal_equations_fit end_to_end_example
  = compute_sota_auto normal_equations_fit more_products_example.
Proof.
  apply (compute_sota_auto_competitors_only normal_equations_fit
           end_to_end_example more_products_example); try reflexivity.
  - repeat constructor; eexists; reflexivity.
  - repeat constructor; eexists; reflexivity.
Defined.

(** With two or more competitor rows of numbers, the fit is what [curve_fit]
    makes of their columns. *)
Lemma compute_sota_auto_fit
  (curve_fit : (R -> R -> R -> R) -> ndarray -> ndarray -> outcome (R * R))
  (df : DataFrame) :
  has_column df "ID" = true ->
  has_column df "X FOM" = true ->
  has_column df "Y FOM" = true ->
  Forall id_is_text (rows df) ->
  Forall (fun r => exists v, row_get "X FOM" r = Num v) (competitors df) ->
  Forall (fun r => exists v, row_get "Y FOM" r = Num v) (competitors df) ->
  (2 <= List.length (competitors df))%nat ->
  compute_sota_auto curve_fit df
  = (params <- curve_fit linear (fom_values "X FOM" (competitors df))
                 (fom_values "Y FOM" (competitors df)) ;;
     Return (fun x => Return (affine (fst params) (snd params) x))).
Proof.
  intros Hid Hx Hy Htext Hxn Hyn Hlen.
  unfold compute_sota_auto.
  rewrite (getitem_column _ _ Hid). cbn [bind].
  rewrite (select_by_prefix _ _ Htext). cbn [bind].
  fold (competitors df).
  destruct (competitors df) as [|ra [|rb rest]] eqn:Hrows;
    [simpl in Hlen; lia | simpl in Hlen; lia |].
  assert (Hne : DataFrame_empty (mkDataFrame (columns df) (ra :: rb :: rest))
                = false).
  { unfold DataFrame_empty. cbn [rows columns].
    destruct (columns df) eqn:Hc; [|reflexivity].
    exfalso. now apply (has_column_nonempty _ _ Hid). }
  rewrite Hne. cbn [rows List.length Nat.eqb].
  rewrite (getitem_selected _ _ _ Hx), (getitem_selected _ _ _ Hy).
  cbn [bind].
  rewrite (to_ndarray_numbers "X FOM" _ Hxn). cbn [bind].
  rewrite (to_ndarray_numbers "Y FOM" _ Hyn). cbn [bind].
  reflexivity.
Qed.

(** X8.  A failure of the fit is not handled: with two or more competitor
    rows of numbers, an exception raised by [curve_fit] leaves
    [compute_sota_auto], and leaves the resolver when the override column
    yields no function. *)
Theorem compute_sota_auto_fit_failure
  (curve_fit : (R -> R -> R -> R) -> ndarray -> ndarray -> outcome (R * R))
  (df : DataFrame) (e : exn) :
  has_column df "ID" = true ->
  has_column df "X FOM" = true ->
  has_column df "Y FOM" = true ->
  Forall id_is_text (rows df) ->
  Forall (fun r => exists v, row_get "X FOM" r = Num v) (competitors df) ->
  Forall (fun r => exists v, row_get "Y FOM" r = Num v) (competitors df) ->
  (2 <= List.length (competitors df))%nat ->
  curve_fit linear (fom_values "X FOM" (competitors df))
    (fom_values "Y FOM" (competitors df)) = Raise e ->
  compute_sota_auto curve_fit df = Raise e
  /\ (parse_sota_override df = Return None ->
      resolve_sota curve_fit df = Raise e).
Proof.
  intros Hid Hx Hy Htext Hxn Hyn Hlen Hfit.
  assert (Hauto : compute_sota_auto curve_fit df = Raise e).
  { rewrite (compute_sota_auto_fit _ _ Hid Hx Hy Htext Hxn Hyn Hlen).
    now rewrite Hfit. }
  split; [exact Hauto|].
  intros Hover. unfold resolve_sota. now rewrite Hover.
Qed.

Lemma compute_sota_auto_fit_failure_witness :
  compute_sota_auto no_fit end_to_end_example = Raise RuntimeError
  /\ (parse_sota_override end_to_end_example = Return None ->
      resolve_sota no_fit end_to_end_example = Raise RuntimeError).
Proof.
  apply (compute_sota_auto_fit_failure no_fit end_to_end_example RuntimeError);
    try reflexivity.
  - repeat constructor; eexists; reflexivity.
  - repeat constructor; eexists; reflexivity.
  - repeat constructor; eexists; reflexivity.
Defined.

(** ** The loader, again *)

Lemma filter_idempotent {A : Type} (p : A -> bool) (l : list A) :
  filter p (filter p l) = filter p l.
Proof.
  induction l as [|a l IH]; simpl; [reflexivity|].
  destruct (p a) eqn:E; simpl; [rewrite E; now rewrite IH | exact IH].
Qed.

(** What [load_fom_data] returns, when it returns. *)
Lemma load_fom_data_returned
  (read_excel : string -> string -> outcome DataFrame)
  (filepath : string) (df' : DataFrame) :
  load_fom_data read_excel filepath = Return df' ->
  exists df,
    read_excel filepath "FOM_Data" = Return df
    /\ has_column df "X FOM" = true
    /\ has_column df "Y FOM" = true
    /\ df' = mkDataFrame (columns df)
               (filter (fun r => negb (fom_missing r)) (rows df)).
Proof.
  unfold load_fom_data.
  destruct (read_excel filepath "FOM_Data") as [df| | |] eqn:Hread; cbn [bind];
    try discriminate.
  unfold DataFrame_dropna. cbn [forallb]. rewrite andb_true_r.
  destruct (has_column df "X FOM") eqn:Hx; [|discriminate].
  destruct (has_column df "Y FOM") eqn:Hy; [|discriminate].
  cbn [andb]. intros H. injection H as <-.
  exists df. split; [reflexivity | split; [exact Hx | split; [exact Hy|]]].
  f_equal. apply filter_ext. intros r. apply complete_on_fom.
Qed.

(** X9.  Whatever [load_fom_data] returns has both FOM columns and no row
    with a missing [X FOM] or [Y FOM]; it comes from a sheet that
    [read_excel] returned, with the columns of that sheet. *)
Theorem load_fom_data_postcondition
  (read_excel : string -> string -> outcome DataFrame)
  (filepath : string) (df' : DataFrame) :
  load_fom_data read_excel filepath = Return df' ->
  has_column df' "X FOM" = true
  /\ has_column df' "Y FOM" = true
  /\ Forall (fun r => fom_missing r = false) (rows df')
  /\ exists df,
       read_excel filepath "FOM_Data" = Return df
       /\ columns df' = columns df
       /\ incl (rows df') (rows df).
Proof.
  intros H. destruct (load_fom_data_returned _ _ _ H) as [df [Hread [Hx [Hy ->]]]].
  split; [exact Hx | split; [exact Hy | split]].
  - cbn [rows]. apply Forall_forall. intros r Hin.
    apply filter_In in Hin. destruct Hin as [_ Hkeep].
    now apply negb_true_iff in Hkeep.
  - exists df. split; [exact Hread | split; [reflexivity|]].
    cbn [rows]. intros r Hin. apply filter_In in Hin. tauto.
Qed.

Lemma load_fom_data_postcondition_witness :
  has_column
    (mkDataFrame (columns sheet_example)
       (filter (fun r => negb (fom_missing r)) (rows sheet_example))) "X FOM"
  = true
  /\ Forall (fun r => fom_missing r = false)
       (filter (fun r => negb (fom_missing r)) (rows sheet_example)).
Proof.
  destruct (load_fom_data_postcondition (fun _ _ => Return sheet_example)
              "fom.xlsx"
              (mkDataFrame (columns sheet_example)
                 (filter (fun r => negb (fom_missing r)) (rows sheet_example)))
              eq_refl) as [Hx [_ [Hall _]]].
  split; [exact Hx | exact Hall].
Defined.

(** X10.  Loading is idempotent: a frame that [load_fom_data] returned, read
    again as a sheet, is returned unchanged. *)
Theorem load_fom_data_idempotent
  (read_excel : string -> string -> outcome DataFrame)
  (filepath filepath' : string) (df' : DataFrame) :
  load_fom_data read_excel filepath = Return df' ->
  load_fom_data (fun _ _ => Return df') filepath' = Return df'.
Proof.
  intros H. destruct (load_fom_data_returned _ _ _ H) as [df [_ [Hx [Hy ->]]]].
  unfold load_fom_data. cbn [bind]. unfold DataFrame_dropna.
  cbn [forallb]. rewrite andb_true_r.
  change (has_column (mkDataFrame (columns df) _) "X FOM")
    with (has_column df "X FOM").
  change (has_column (mkDataFrame (columns df) _) "Y FOM")
    with (has_column df "Y FOM").
  rewrite Hx, Hy. cbn [andb columns rows]. f_equal. f_equal.
  rewrite (filter_ext _ _ complete_on_fom).
  apply filter_idempotent.
Qed.

Lemma load_fom_data_idempotent_witness :
  load_fom_data
    (fun _ _ =>
       Return (mkDataFrame (columns sheet_example)
                 (filter (fun r => negb (fom_missing r)) (rows sheet_example))))
    "again.xlsx"
  = Return (mkDataFrame (columns sheet_example)
              (filter (fun r => negb (fom_missing r)) (rows sheet_example))).
Proof.
  apply (load_fom_data_idempotent (fun _ _ => Return sheet_example)
           "fom.xlsx" "again.xlsx"). reflexivity.
Defined.

(** ** Metadata, again *)

Lemma first_value_or_default_notna (df : DataFrame) (name : string)
  (default : cell) :
  notna default = true ->
  notna (first_value_or_default df name default) = true.
Proof.
  intros Hd. unfold first_value_or_default.
  destruct (has_column df name); [|exact Hd].
  destruct (find notna (map (row_get name) (rows df))) as [v|] eqn:Hf;
    [|exact Hd].
  apply find_some in Hf. tauto.
Qed.

(** X11.  The title and the two axis names that [get_chart_metadata] returns
    are never a missing value, on any frame. *)
Theorem get_chart_metadata_notna (df : DataFrame) :
  exists chart_title x_name y_name,
    get_chart_metadata df = Return (chart_title, x_name, y_name)
    /\ notna chart_title = true
    /\ notna x_name = true
    /\ notna y_name = true.
Proof.
  unfold get_chart_metadata. rewrite !metadata_field_spec. cbn [bind].
  eexists _, _, _. split; [reflexivity|].
  repeat split; now apply first_value_or_default_notna.
Qed.

(** ** The program *)

(** X12.  The program ends with exit status 1, and draws nothing, when no
    file is chosen, when reading the sheet raises, and when the sheet lacks
    [X FOM] or [Y FOM]. *)
Theorem main_exits_on_load_failure
  (askopenfilename : string)
  (read_excel : string -> string -> outcome DataFrame)
  (curve_fit : (R -> R -> R -> R) -> ndarray -> ndarray -> outcome (R * R))
  (float_log10 float_pow10 : R -> R) :
  askopenfilename = EmptyString
  \/ (exists e, read_excel askopenfilename "FOM_Data" = Raise e)
  \/ (exists df,
        read_excel askopenfilename "FOM_Data" = Return df
        /\ has_column df "X FOM" && has_column df "Y FOM" = false) ->
  main askopenfilename read_excel curve_fit float_log10 float_pow10 = Exit 1.
Proof.
  intros H. unfold main, select_file.
  destruct askopenfilename as [|c path]; [reflexivity|].
  destruct H as [H | [[e H] | [df [H Hcols]]]]; [discriminate | |]; cbn [bind].
  - unfold load_fom_data. now rewrite H.
  - now rewrite (load_fom_data_missing_column _ _ _ H Hcols).
Qed.

Lemma main_exits_on_load_failure_witness :
  main "" (fun _ _ => Return sheet_example) no_fit log10 (Rpower 10) = Exit 1
  /\ main "fom.xlsx" (fun _ _ => Raise RuntimeError) no_fit log10 (Rpower 10)
     = Exit 1
  /\ main "fom.xlsx"
       (fun _ _ => Return (mkDataFrame ["ID"; "X FOM"] [])) no_fit
       log10 (Rpower 10) = Exit 1.
Proof.
  split; [|split].
  - apply main_exits_on_load_failure. now left.
  - apply main_exits_on_load_failure. right. left. now exists RuntimeError.
  - apply main_exits_on_load_failure. right. right.
    now exists (mkDataFrame ["ID"; "X FOM"] []).
Defined.

Lemma load_fom_data_kept
  (read_excel : string -> string -> outcome DataFrame)
  (filepath : string) (df : DataFrame) :
  read_excel filepath "FOM_Data" = Return df ->
  has_column df "X FOM" = true ->
  has_column df "Y FOM" = true ->
  load_fom_data read_excel filepath
  = Return (mkDataFrame (columns df) (kept_rows df)).
Proof.
  intros Hread Hx Hy. unfold load_fom_data. rewrite Hread. cbn [bind].
  unfold DataFrame_dropna. cbn [forallb]. rewrite Hx, Hy. cbn [andb].
  unfold kept_rows. f_equal. f_equal. apply filter_ext. intros r.
  apply complete_on_fom.
Qed.

Lemma compute_sota_auto_none
  (curve_fit : (R -> R -> R -> R) -> ndarray -> ndarray -> outcome (R * R))
  (df : DataFrame) :
  has_column df "ID" = true ->
  Forall id_is_text (rows df) ->
  competitors df = [] ->
  compute_sota_auto curve_fit df = Return (fun x => np_full_like x (Num 0)).
Proof.
  intros Hid Htext Hnone. unfold compute_sota_auto.
  rewrite (getitem_column _ _ Hid). cbn [bind].
  rewrite (select_by_prefix _ _ Htext). cbn [bind].
  fold (competitors df). rewrite Hnone. reflexivity.
Qed.

Lemma compute_sota_auto_one
  (curve_fit : (R -> R -> R -> R) -> ndarray -> ndarray -> outcome (R * R))
  (df : DataFrame) (r : Row) :
  has_column df "ID" = true ->
  has_column df "Y FOM" = true ->
  Forall id_is_text (rows df) ->
  competitors df = [r] ->
  compute_sota_auto curve_fit df
  = Return (fun x => np_full_like x (row_get "Y FOM" r)).
Proof.
  intros Hid Hy Htext Hone. unfold compute_sota_auto.
  rewrite (getitem_column _ _ Hid). cbn [bind].
  rewrite (select_by_prefix _ _ Htext). cbn [bind].
  fold (competitors df). rewrite Hone.
  assert (Hne : DataFrame_empty (mkDataFrame (columns df) [r]) = false).
  { unfold DataFrame_empty. cbn [rows columns].
    destruct (columns df) eqn:Hc; [|reflexivity].
    exfalso. now apply (has_column_nonempty _ _ Hid). }
  rewrite Hne. cbn [rows List.length Nat.eqb].
  rewrite (getitem_selected _ _ _ Hy). reflexivity.
Qed.

Lemma dropna_blank_column (name : string) (rs : list Row) :
  Forall (fun r => row_get name r = NaN) rs ->
  Series_dropna (map (row_get name) rs) = [].
Proof.
  unfold Series_dropna.
  induction 1 as [|r rs Hr _ IH]; cbn [map filter]; [reflexivity|].
  rewrite Hr. exact IH.
Qed.

(** X13.  The whole program on a well-formed sheet.  When a file is chosen,
    the sheet is read, has the columns [ID], [Label], [X FOM], [Y FOM] and an
    empty [SOTA Override], and its rows with both FOM values are at least one,
    have a text [ID], a positive [X FOM] and a number as [Y FOM], and the fit
    returns when there are two or more competitors, then the program returns:
    nothing is raised, and the reference line is drawn with 100 points. *)
Theorem main_draws
  (askopenfilename : string)
  (read_excel : string -> string -> outcome DataFrame)
  (curve_fit : (R -> R -> R -> R) -> ndarray -> ndarray -> outcome (R * R))
  (float_log10 float_pow10 : R -> R)
  (df : DataFrame) :
  askopenfilename <> EmptyString ->
  read_excel askopenfilename "FOM_Data" = Return df ->
  has_column df "ID" = true ->
  has_column df "Label" = true ->
  has_column df "X FOM" = true ->
  has_column df "Y FOM" = true ->
  has_column df "SOTA Override" = true ->
  kept_rows df <> [] ->
  Forall id_is_text (kept_rows df) ->
  Forall x_positive (kept_rows df) ->
  Forall (fun r => exists v, row_get "Y FOM" r = Num v) (kept_rows df) ->
  Forall (fun r => row_get "SOTA Override" r = NaN) (kept_rows df) ->
  (forall x y, (2 <= List.length x)%nat ->
               exists p, curve_fit linear x y = Return p) ->
  exists calls x_vals y_vals,
    main askopenfilename read_excel curve_fit float_log10 float_pow10
    = Return calls
    /\ In (plt_plot x_vals y_vals "--" "green" "SOTA Line") calls
    /\ List.length x_vals = 100%nat
    /\ List.length y_vals = 100%nat.
Proof.
  intros Hfile Hread Hid Hlabel Hx Hy Hover Hne Htext Hpos Hynum Hblank Hfit.
  set (df' := mkDataFrame (columns df) (kept_rows df)).
  assert (Hload : load_fom_data read_excel askopenfilename = Return df')
    by now apply load_fom_data_kept.
  assert (Hparse : parse_sota_override df' = Return None).
  { apply (parse_sota_override_blank df' (map (row_get "SOTA Override") (rows df'))).
    - exact (getitem_column df' "SOTA Override" Hover).
    - exact (dropna_blank_column _ _ Hblank). }
  assert (Hres : exists f,
             resolve_sota curve_fit df' = Return f
             /\ forall x, exists y,
                  f x = Return y /\ List.length y = List.length x).
  { unfold resolve_sota. rewrite Hparse. cbn [bind].
    assert (Hcy : Forall (fun r => exists v, row_get "Y FOM" r = Num v)
                    (competitors df')).
    { apply Forall_forall. intros r Hin. apply filter_In in Hin.
      rewrite Forall_forall in Hynum. now apply Hynum. }
    assert (Hcx : Forall (fun r => exists v, row_get "X FOM" r = Num v)
                    (competitors df')).
    { apply Forall_forall. intros r Hin. apply filter_In in Hin.
      rewrite Forall_forall in Hpos. destruct (Hpos r (proj1 Hin)) as [v [Hv _]].
      now exists v. }
    destruct (competitors df') as [|ra [|rb rest]] eqn:Hcomp.
    - rewrite (compute_sota_auto_none curve_fit df' Hid Htext Hcomp).
      eexists. split; [reflexivity|]. intros x. eexists.
      split; [reflexivity | apply length_map].
    - rewrite (compute_sota_auto_one curve_fit df' ra Hid Hy Htext Hcomp).
      inversion Hcy as [|? ? [v Hv] _]; subst.
      eexists. split; [reflexivity|]. intros x. rewrite Hv. eexists.
      split; [reflexivity | apply length_map].
    - assert (Hlen : (2 <= List.length (competitors df'))%nat)
        by (rewrite Hcomp; simpl; lia).
      rewrite <- Hcomp in Hcx, Hcy.
      rewrite (compute_sota_auto_fit curve_fit df' Hid Hx Hy Htext Hcx Hcy Hlen).
      destruct (Hfit (fom_values "X FOM" (competitors df'))
                  (fom_values "Y FOM" (competitors df'))) as [p Hp].
      { unfold fom_values. now rewrite length_map. }
      rewrite Hp. cbn [bind].
      eexists. split; [reflexivity|]. intros x. eexists.
      split; [reflexivity | apply length_map]. }
  destruct Hres as [f [Hresolve Hf]].
  destruct (plot_fom_calls float_log10 float_pow10 df'
              Hid Hlabel Hx Hy Htext Hne Hpos)
    as [lo [hi [_ [_ [_ [_ Hplot]]]]]].
  set (x_vals := np_logspace float_pow10 (float_log10 lo) (float_log10 hi) 100)
    in *.
  destruct (Hf x_vals) as [y_vals [Hy_vals Hylen]].
  exists (plot_calls df' x_vals y_vals), x_vals, y_vals.
  split; [|split; [|split]].
  - unfold main, select_file.
    destruct askopenfilename as [|c path]; [contradiction|].
    cbn [bind]. rewrite Hload. cbn [bind]. rewrite Hresolve. cbn [bind].
    rewrite Hplot, Hy_vals. reflexivity.
  - unfold plot_calls. apply in_or_app. right. apply in_or_app. right.
    apply in_or_app. right. apply in_or_app. right. now left.
  - apply np_logspace_length.
  - rewrite Hylen. apply np_logspace_length.
Qed.

Lemma main_draws_witness :
  exists calls x_vals y_vals,
    main "fom.xlsx" (fun _ _ => Return end_to_end_example) normal_equations_fit
      log10 (Rpower 10)
    = Return calls
    /\ In (plt_plot x_vals y_vals "--" "green" "SOTA Line") calls
    /\ List.length x_vals = 100%nat
    /\ List.length y_vals = 100%nat.
Proof.
  apply (main_draws "fom.xlsx" (fun _ _ => Return end_to_end_example)
           normal_equations_fit log10 (Rpower 10) end_to_end_example);
    try reflexivity.
  - discriminate.
  - discriminate.
  - repeat constructor; eexists; reflexivity.
  - repeat constructor; eexists; (split; [reflexivity | lra]).
  - repeat constructor; eexists; reflexivity.
  - repeat constructor.
  - intros x y _. unfold normal_equations_fit. now eexists.
Defined.

(** ** Where the program can exit *)

Lemma never_exits_bind {A B : Type} (m : outcome A) (k : A -> outcome B) :
  never_exits m ->
  (forall a, m = Return a -> never_exits (k a)) ->
  never_exits (bind m k).
Proof.
  intros Hm Hk n. destruct m as [a| e | c |]; cbn [bind].
  - now apply Hk.
  - discriminate.
  - exfalso. now apply (Hm c).
  - discriminate.
Qed.

Lemma never_exits_return {A : Type} (a : A) : never_exits (Return a).
Proof. intros n. discriminate. Qed.

Lemma never_exits_raise {A : Type} (e : exn) : never_exits (@Raise A e).
Proof. intros n. discriminate. Qed.

Lemma never_exits_not_finite {A : Type} : never_exits (@NotFinite A).
Proof. intros n. discriminate. Qed.

Ltac never_exits_step :=
  match goal with
  | |- never_exits (Return _) => apply never_exits_return
  | |- never_exits (Raise _) => apply never_exits_raise
  | |- never_exits NotFinite => apply never_exits_not_finite
  | |- never_exits (bind _ _) => apply never_exits_bind; [|intros ? ?]
  | |- never_exits (if ?c then _ else _) => destruct c
  | |- never_exits (match ?c with _ => _ end) => destruct c
  end.

Lemma never_exits_getitem (df : DataFrame) (name : string) :
  never_exits (getitem df name).
Proof. unfold getitem. repeat never_exits_step. Qed.

Lemma never_exits_mask (df : DataFrame) (mask : list (option bool)) :
  never_exits (DataFrame_mask df mask).
Proof. unfold DataFrame_mask. repeat never_exits_step. Qed.

Lemma never_exits_values0 (s : Series) : never_exits (values0 s).
Proof. unfold values0. repeat never_exits_step. Qed.

Lemma never_exits_to_ndarray (s : Series) : never_exits (to_ndarray s).
Proof.
  induction s as [|c s IH]; cbn [to_ndarray]; repeat never_exits_step.
  exact IH.
Qed.

Lemma never_exits_numbers (s : Series) : never_exits (numbers s).
Proof.
  induction s as [|c s IH]; cbn [numbers]; repeat never_exits_step;
    exact IH.
Qed.

Lemma never_exits_annotate (df : DataFrame) (rs : list Row) :
  never_exits (annotate df rs).
Proof.
  induction rs as [|r rs IH]; cbn [annotate]; unfold row_item;
    repeat never_exits_step.
  exact IH.
Qed.

Lemma never_exits_full_like (x : ndarray) (c : cell) :
  never_exits (np_full_like x c).
Proof. unfold np_full_like. repeat never_exits_step. Qed.

Lemma never_exits_parse_sota_override (df : DataFrame) :
  never_exits (parse_sota_override df).
Proof.
  unfold parse_sota_override. apply never_exits_bind;
    [apply never_exits_getitem | intros col _].
  cbv zeta. destruct (negb (Series_empty (Series_dropna col)));
    [|apply never_exits_return].
  apply never_exits_bind; [apply never_exits_values0 | intros v _].
  destruct (parse_formula_outcomes v) as [H | [H | [H | [a [b [_ H]]]]]];
    rewrite H; repeat never_exits_step.
Qed.

(** The function of a parsed override is linear. *)
Lemma parse_sota_override_linear (df : DataFrame) (f : ReferenceFunction) :
  parse_sota_override df = Return (Some f) ->
  exists a b, f = fun x => Return (affine a b x).
Proof.
  unfold parse_sota_override.
  destruct (getitem df "SOTA Override") as [col| | |]; cbn [bind];
    try discriminate.
  destruct (negb (Series_empty (Series_dropna col))); [|discriminate].
  destruct (values0 (Series_dropna col)) as [v| | |]; cbn [bind];
    try discriminate.
  destruct (parse_formula_outcomes v) as [H | [H | [H | [a [b [_ H]]]]]];
    rewrite H; try discriminate.
  intros E. injection E as <-. now exists a, b.
Qed.

(** The function of the automatic fit is constant or linear. *)
Lemma compute_sota_auto_function
  (curve_fit : (R -> R -> R -> R) -> ndarray -> ndarray -> outcome (R * R))
  (df : DataFrame) (f : ReferenceFunction) :
  compute_sota_auto curve_fit df = Return f ->
  (exists c, f = fun x => np_full_like x c)
  \/ (exists a b, f = fun x => Return (affine a b x)).
Proof.
  unfold compute_sota_auto.
  destruct (getitem df "ID") as [ids| | |]; cbn [bind]; try discriminate.
  destruct (DataFrame_mask df (str_startswith "COMP" ids)) as [df_comp| | |];
    cbn [bind]; try discriminate.
  destruct (DataFrame_empty df_comp).
  { intros E. injection E as <-. left. now exists (Num 0). }
  destruct (List.length (rows df_comp) =? 1)%nat.
  { destruct (getitem df_comp "Y FOM") as [ys| | |]; cbn [bind];
      try discriminate.
    destruct (values0 ys) as [y_val| | |]; cbn [bind]; try discriminate.
    intros E. injection E as <-. left. now exists y_val. }
  destruct (getitem df_comp "X FOM") as [xs| | |]; cbn [bind]; try discriminate.
  destruct (getitem df_comp "Y FOM") as [ys| | |]; cbn [bind]; try discriminate.
  destruct (to_ndarray xs) as [x| | |]; cbn [bind]; try discriminate.
  destruct (to_ndarray ys) as [y| | |]; cbn [bind]; try discriminate.
  destruct (curve_fit linear x y) as [p| | |]; cbn [bind]; try discriminate.
  intros E. injection E as <-. right. now exists (fst p), (snd p).
Qed.

Lemma never_exits_compute_sota_auto
  (curve_fit : (R -> R -> R -> R) -> ndarray -> ndarray -> outcome (R * R))
  (df : DataFrame) :
  (forall g x y, never_exits (curve_fit g x y)) ->
  never_exits (compute_sota_auto curve_fit df).
Proof.
  intros Hfit. unfold compute_sota_auto.
  apply never_exits_bind; [apply never_exits_getitem | intros ids _].
  apply never_exits_bind; [apply never_exits_mask | intros df_comp _].
  destruct (DataFrame_empty df_comp); [apply never_exits_return|].
  destruct (List.length (rows df_comp) =? 1)%nat.
  - apply never_exits_bind; [apply never_exits_getitem | intros ys _].
    apply never_exits_bind; [apply never_exits_values0 | intros y_val _].
    apply never_exits_return.
  - apply never_exits_bind; [apply never_exits_getitem | intros xs _].
    apply never_exits_bind; [apply never_exits_getitem | intros ys _].
    apply never_exits_bind; [apply never_exits_to_ndarray | intros x _].
    apply never_exits_bind; [apply never_exits_to_ndarray | intros y _].
    apply never_exits_bind; [apply Hfit | intros p _].
    apply never_exits_return.
Qed.

Lemma never_exits_resolve_sota
  (curve_fit : (R -> R -> R -> R) -> ndarray -> ndarray -> outcome (R * R))
  (df : DataFrame) :
  (forall g x y, never_exits (curve_fit g x y)) ->
  never_exits (resolve_sota curve_fit df)
  /\ forall f, resolve_sota curve_fit df = Return f ->
               forall x, never_exits (f x).
Proof.
  intros Hfit. unfold resolve_sota. split.
  - apply never_exits_bind; [apply never_exits_parse_sota_override|].
    intros [f|] _; [apply never_exits_return|].
    now apply never_exits_compute_sota_auto.
  - intros f. destruct (parse_sota_override df) as [[g|]| | |] eqn:Hparse;
      cbn [bind]; try discriminate.
    + intros E. injection E as <-.
      destruct (parse_sota_override_linear _ _ Hparse) as [a [b ->]].
      intros x. apply never_exits_return.
    + intros Hauto x.
      destruct (compute_sota_auto_function _ _ _ Hauto) as [[c ->] | [a [b ->]]].
      * apply never_exits_full_like.
      * apply never_exits_return.
Qed.

Lemma never_exits_plot_fom (float_log10 float_pow10 : R -> R)
  (df : DataFrame) (sota_fn : ReferenceFunction) :
  (forall x, never_exits (sota_fn x)) ->
  never_exits (plot_fom float_log10 float_pow10 df sota_fn).
Proof.
  intros Hf. unfold plot_fom, get_chart_metadata.
  rewrite !metadata_field_spec. cbn [bind].
  repeat (apply never_exits_bind;
          [first [ apply never_exits_getitem | apply never_exits_mask
                 | apply never_exits_annotate | apply Hf
                 | unfold Series_min, Series_max;
                   apply never_exits_bind;
                   [apply never_exits_numbers
                   | intros ? ?; repeat never_exits_step]
                 | unfold np_log10; repeat never_exits_step ]
          | intros ? _]).
  apply never_exits_return.
Qed.

(** X14.  The program calls [exit] only while choosing and loading the file.
    When neither [read_excel] nor [curve_fit] exits by itself, an exit of the
    program has status 1 and means that no file was chosen, that reading the
    sheet raised, or that the sheet lacks [X FOM] or [Y FOM]; a failure of
    the later stages is never turned into an exit. *)
Theorem main_exit_only_on_load_failure
  (askopenfilename : string)
  (read_excel : string -> string -> outcome DataFrame)
  (curve_fit : (R -> R -> R -> R) -> ndarray -> ndarray -> outcome (R * R))
  (float_log10 float_pow10 : R -> R)
  (n : Z) :
  (forall filepath sheet, never_exits (read_excel filepath sheet)) ->
  (forall g x y, never_exits (curve_fit g x y)) ->
  main askopenfilename read_excel curve_fit float_log10 float_pow10 = Exit n ->
  n = 1%Z
  /\ (askopenfilename = EmptyString
      \/ (exists e, read_excel askopenfilename "FOM_Data" = Raise e)
      \/ (exists df,
            read_excel askopenfilename "FOM_Data" = Return df
            /\ has_column df "X FOM" && has_column df "Y FOM" = false)).
Proof.
  intros Hread Hfit. unfold main, select_file.
  destruct askopenfilename as [|c path]; cbn [bind].
  { intros E. injection E as <-. split; [reflexivity | now left]. }
  destruct (load_fom_data read_excel (String c path)) as [df'| e | m |] eqn:Hload;
    cbn [bind]; try discriminate.
  - intros E. exfalso.
    destruct (never_exits_resolve_sota curve_fit df' Hfit) as [Hres Hfun].
    destruct (resolve_sota curve_fit df') as [f| | |] eqn:Hf; cbn [bind] in E;
      try discriminate.
    + exact (never_exits_plot_fom float_log10 float_pow10 df' f
               (Hfun f eq_refl) n E).
    + exact (Hres _ eq_refl).
  - intros E. injection E as <-. unfold load_fom_data in Hload.
    destruct (read_excel (String c path) "FOM_Data") as [df| e | m' |] eqn:Hr;
      cbn [bind] in Hload.
    + unfold DataFrame_dropna in Hload. cbn [forallb] in Hload.
      rewrite andb_true_r in Hload.
      destruct (has_column df "X FOM" && has_column df "Y FOM") eqn:Hcols;
        [discriminate|].
      injection Hload as <-. split; [reflexivity|].
      right. right. now exists df.
    + injection Hload as <-. split; [reflexivity|].
      right. left. now exists e.
    + exfalso. exact (Hread _ _ _ Hr).
    + discriminate.
Qed.

Lemma main_exit_only_on_load_failure_witness :
  1%Z = 1%Z
  /\ (String "f" "om.xlsx" = EmptyString
      \/ (exists e, Raise (A := DataFrame) RuntimeError = Raise e)
      \/ (exists df,
            Raise (A := DataFrame) RuntimeError = Return df
            /\ has_column df "X FOM" && has_column df "Y FOM" = false)).
Proof.
  apply (main_exit_only_on_load_failure "fom.xlsx"
           (fun _ _ => Raise RuntimeError) no_fit log10 (Rpower 10) 1%Z).
  - intros filepath sheet k. discriminate.
  - intros g x y k. discriminate.
  - reflexivity.
Defined.

(** ** The override column, again *)

(** X15.  Only the first non-empty cell of [SOTA Override] is read: two
    sheets whose override columns start with the same non-empty cell get the
    same outcome from the parser, whatever the later cells hold, so a formula
    in a later row is ignored. *)
Theorem parse_sota_override_first_cell_only
  (df1 df2 : DataFrame) (col1 col2 : Series) (v : cell) (rest1 rest2 : Series) :
  getitem df1 "SOTA Override" = Return col1 ->
  getitem df2 "SOTA Override" = Return col2 ->
  Series_dropna col1 = v :: rest1 ->
  Series_dropna col2 = v :: rest2 ->
  parse_sota_override df1 = parse_sota_override df2.
Proof.
  intros Hget1 Hget2 Hfirst1 Hfirst2.
  rewrite (parse_sota_override_first _ _ _ _ Hget1 Hfirst1).
  now rewrite (parse_sota_override_first _ _ _ _ Hget2 Hfirst2).
Qed.

Lemma parse_sota_override_first_cell_only_witness :
  parse_sota_override (two_formulas_example "slope 3" "y = 3 * x")
  = parse_sota_override (override_frame "slope 3").
Proof.
  apply (parse_sota_override_first_cell_only
           (two_formulas_example "slope 3" "y = 3 * x")
           (override_frame "slope 3")
           [Str "slope 3"; NaN; Str "y = 3 * x"] [NaN; Str "slope 3"; NaN]
           (Str "slope 3") [Str "y = 3 * x"] []); reflexivity.
Defined.

Lemma resolve_sota_without_formula_witness :
  resolve_sota no_fit (override_frame "y = -2 * x")
  = compute_sota_auto no_fit (override_frame "y = -2 * x").
Proof.
  apply (resolve_sota_without_formula no_fit (override_frame "y = -2 * x")).
  - reflexivity.
  - right. exists "y = -2 * x", []. split; [reflexivity | vm_compute; reflexivity].
Defined.
